(** * supervisorctl-client: the status-line parser and the command invoker

    A shallow embedding of [supervisor.go].  A Go [string] is an immutable
    sequence of bytes, which is what [String.string] is (an [ascii] is one
    8-bit byte), so Go strings are Rocq strings and string literals read as
    in the source.  A Go [int] is a [Z]; the only place where its width
    shows is [strconv.Atoi], which clamps to [intSize] bits.

    The Go packages the source calls ([unicode/utf8], [unicode], [strings],
    [strconv], [bufio]) are embedded in modules of the same names, function
    by function, with the behaviour of the Go standard library. *)

From Stdlib Require Import List String Ascii ZArith Lia Bool Arith.
Import ListNotations.

Open Scope string_scope.
Open Scope Z_scope.

(** ** Bytes and slicing *)

(** The numeric value of a byte, [0 <= byteZ c < 256]. *)
Definition byteZ (c : ascii) : Z := Z.of_N (N_of_ascii c).

(** [s[:n]] and [s[n:]], for [n <= len(s)]. *)
Fixpoint take (n : nat) (s : string) : string :=
  match n, s with
  | S n', String c s' => String c (take n' s')
  | _, _ => ""
  end.

Fixpoint drop (n : nat) (s : string) : string :=
  match n, s with
  | S n', String _ s' => drop n' s'
  | _, _ => s
  end.

(** The bytes of [s] in reverse order (for the loops that walk a string
    from its end). *)
Fixpoint rev_append (s acc : string) : string :=
  match s with
  | "" => acc
  | String c s' => rev_append s' (String c acc)
  end.

Definition reverse (s : string) : string := rev_append s "".

(** ** Package unicode/utf8 *)

Module utf8.

Definition RuneError : Z := 0xFFFD.
Definition RuneSelf : Z := 0x80.
Definition UTFMax : nat := 4.

Definition locb : Z := 0x80.
Definition hicb : Z := 0xBF.

(** The table [first]: what a leading byte announces.  [as_] is an ASCII
    byte, [xx] an invalid leading byte, [lead sz lo hi] the start of a
    sequence of [sz] bytes whose second byte must lie in [lo..hi]. *)
Inductive firstInfo : Type :=
| as_
| xx
| lead (sz : nat) (lo hi : Z).

Definition first (b : Z) : firstInfo :=
  if b <? 0x80 then as_
  else if b <? 0xC2 then xx
  else if b <? 0xE0 then lead 2 locb hicb
  else if b =? 0xE0 then lead 3 0xA0 hicb
  else if b <? 0xED then lead 3 locb hicb
  else if b =? 0xED then lead 3 locb 0x9F
  else if b <? 0xF0 then lead 3 locb hicb
  else if b =? 0xF0 then lead 4 0x90 hicb
  else if b <? 0xF4 then lead 4 locb hicb
  else if b =? 0xF4 then lead 4 locb 0x8F
  else xx.

Definition isCont (b : Z) : bool := (locb <=? b) && (b <=? hicb).

(** [DecodeRuneInString]: the first rune of [s] and its width in bytes;
    [(RuneError, 0)] on the empty string and [(RuneError, 1)] on an
    invalid or truncated encoding. *)
Definition DecodeRuneInString (s : string) : Z * nat :=
  match s with
  | "" => (RuneError, 0%nat)
  | String c0 t1 =>
      let s0 := byteZ c0 in
      match first s0 with
      | as_ => (s0, 1%nat)
      | xx => (RuneError, 1%nat)
      | lead sz lo hi =>
          if (String.length s <? sz)%nat then (RuneError, 1%nat) else
          match t1 with
          | "" => (RuneError, 1%nat)
          | String c1 t2 =>
              let s1 := byteZ c1 in
              if (s1 <? lo) || (hi <? s1) then (RuneError, 1%nat) else
              if (sz <=? 2)%nat then
                (Z.lor (Z.shiftl (Z.land s0 0x1F) 6) (Z.land s1 0x3F), 2%nat)
              else
              match t2 with
              | "" => (RuneError, 1%nat)
              | String c2 t3 =>
                  let s2 := byteZ c2 in
                  if negb (isCont s2) then (RuneError, 1%nat) else
                  if (sz <=? 3)%nat then
                    (Z.lor (Z.lor (Z.shiftl (Z.land s0 0x0F) 12)
                                  (Z.shiftl (Z.land s1 0x3F) 6))
                           (Z.land s2 0x3F), 3%nat)
                  else
                  match t3 with
                  | "" => (RuneError, 1%nat)
                  | String c3 _ =>
                      let s3 := byteZ c3 in
                      if negb (isCont s3) then (RuneError, 1%nat) else
                      (Z.lor (Z.lor (Z.lor (Z.shiftl (Z.land s0 0x07) 18)
                                           (Z.shiftl (Z.land s1 0x3F) 12))
                                    (Z.shiftl (Z.land s2 0x3F) 6))
                             (Z.land s3 0x3F), 4%nat)
                  end
              end
          end
      end
  end.

(** [RuneStart b]: [b] is not a continuation byte. *)
Definition RuneStart (b : Z) : bool := negb (Z.land b 0xC0 =? 0x80).

(** [s[i]] as a number, for an index [i] in range. *)
Definition byteAt (s : string) (i : Z) : Z :=
  match String.get (Z.to_nat i) s with
  | Some c => byteZ c
  | None => 0
  end.

(** The loop [for start--; start >= lim; start-- { if RuneStart(s[start])
    { break } }] of [DecodeLastRuneInString]; it runs at most [UTFMax]
    times, since [lim >= end - UTFMax] and [start] begins at [end - 2]. *)
Fixpoint lastRuneStart (fuel : nat) (s : string) (start lim : Z) : Z :=
  match fuel with
  | O => start
  | S fuel' =>
      if start <? lim then start
      else if RuneStart (byteAt s start) then start
      else lastRuneStart fuel' s (start - 1) lim
  end.

(** [DecodeLastRuneInString]: the last rune of [s] and its width. *)
Definition DecodeLastRuneInString (s : string) : Z * nat :=
  let end_ := Z.of_nat (String.length s) in
  if end_ =? 0 then (RuneError, 0%nat) else
  let r := byteAt s (end_ - 1) in
  if r <? RuneSelf then (r, 1%nat) else
  let lim := Z.max 0 (end_ - Z.of_nat UTFMax) in
  let start := lastRuneStart UTFMax s (end_ - 2) lim in
  let start := if start <? 0 then 0 else start in
  let '(r, size) := DecodeRuneInString (drop (Z.to_nat start) s) in
  if start + Z.of_nat size =? end_ then (r, size) else (RuneError, 1%nat).

End utf8.

(** ** Package unicode *)

Module unicode.

Definition MaxLatin1 : Z := 0xFF.

(** [IsSpace]: the runes with the Unicode White_Space property. *)
Definition IsSpace (r : Z) : bool :=
  if r <=? MaxLatin1 then
    (r =? 0x09) || (r =? 0x0A) || (r =? 0x0B) || (r =? 0x0C) || (r =? 0x0D)
    || (r =? 0x20) || (r =? 0x85) || (r =? 0xA0)
  else
    (r =? 0x1680) || ((0x2000 <=? r) && (r <=? 0x200A))
    || (r =? 0x2028) || (r =? 0x2029) || (r =? 0x202F) || (r =? 0x205F)
    || (r =? 0x3000).

End unicode.

(** ** Package strings *)

Module strings.

(** The table [asciiSpace]: tab, newline, vertical tab, form feed,
    carriage return and space. *)
Definition asciiSpace (c : ascii) : bool :=
  match c with
  | "009" | "010" | "011" | "012" | "013" | " " => true
  | _ => false
  end%char.

(** Some byte of [s] is [>= utf8.RuneSelf]. *)
Fixpoint hasNonASCII (s : string) : bool :=
  match s with
  | "" => false
  | String c s' => (utf8.RuneSelf <=? byteZ c) || hasNonASCII s'
  end.

(** What [for i, r := range s] iterates over: each rune of [s] with the
    bytes that encode it.  Every iteration consumes at least one byte,
    so [String.length s] iterations are enough. *)
Fixpoint runesLoop (fuel : nat) (s : string) : list (Z * string) :=
  match fuel, s with
  | S fuel', String _ _ =>
      let '(r, size) := utf8.DecodeRuneInString s in
      (r, take size s) :: runesLoop fuel' (drop size s)
  | _, _ => []
  end.

Definition runes (s : string) : list (Z * string) :=
  runesLoop (String.length s) s.

(** A field that has ended is recorded unless it is empty. *)
Definition flush (field : string) (fields : list string) : list string :=
  match field with
  | "" => fields
  | _ => field :: fields
  end.

(** [FieldsFunc s f]: the maximal runs of runes that do not satisfy [f].
    The pair is the field at the front of the input that is still open,
    and the fields after it. *)
Fixpoint fieldsFuncLoop (f : Z -> bool) (rs : list (Z * string))
  : string * list string :=
  match rs with
  | [] => ("", [])
  | (r, bytes) :: rs' =>
      let '(field, fields) := fieldsFuncLoop f rs' in
      if f r then ("", flush field fields) else (bytes ++ field, fields)
  end.

Definition FieldsFunc (s : string) (f : Z -> bool) : list string :=
  let '(field, fields) := fieldsFuncLoop f (runes s) in flush field fields.

(** The ASCII fast path of [Fields]. *)
Fixpoint fieldsLoop (s : string) : string * list string :=
  match s with
  | "" => ("", [])
  | String c s' =>
      let '(field, fields) := fieldsLoop s' in
      if asciiSpace c then ("", flush field fields)
      else (String c field, fields)
  end.

(** [Fields s]: [s] split around each run of white space; no field is
    empty. *)
Definition Fields (s : string) : list string :=
  if hasNonASCII s then FieldsFunc s unicode.IsSpace
  else let '(field, fields) := fieldsLoop s in flush field fields.

(** [Join elems sep]. *)
Fixpoint Join (elems : list string) (sep : string) : string :=
  match elems with
  | [] => ""
  | [x] => x
  | x :: xs => x ++ sep ++ Join xs sep
  end.

Fixpoint HasPrefix (s prefix : string) {struct prefix} : bool :=
  match prefix, s with
  | "", _ => true
  | String p prefix', String c s' => Ascii.eqb c p && HasPrefix s' prefix'
  | String _ _, "" => false
  end.

(** [Index s substr]: the index of the first instance of [substr] in
    [s]; [None] is Go's [-1]. *)
Fixpoint Index (s substr : string) : option nat :=
  if HasPrefix s substr then Some 0%nat
  else match s with
       | "" => None
       | String _ s' => option_map S (Index s' substr)
       end.

Definition Contains (s substr : string) : bool :=
  match Index s substr with
  | Some _ => true
  | None => false
  end.

(** The loop of [Count] for a non-empty [substr]: every instance found
    consumes at least one byte. *)
Fixpoint countLoop (fuel : nat) (s substr : string) : nat :=
  match fuel with
  | O => O
  | S fuel' =>
      match Index s substr with
      | None => O
      | Some i => S (countLoop fuel' (drop (i + String.length substr) s) substr)
      end
  end.

(** [Count s substr]: the number of non-overlapping instances. *)
Definition Count (s substr : string) : nat :=
  match substr with
  | "" => S (List.length (runes s))
  | _ => countLoop (String.length s) s substr
  end.

(** [explode s]: [s] split into its UTF-8 sequences. *)
Definition explode (s : string) : list string := map snd (runes s).

(** The loop of [genSplit]: at most [n] cuts. *)
Fixpoint splitLoop (n : nat) (s sep : string) : list string :=
  match n with
  | O => [s]
  | S n' =>
      match Index s sep with
      | None => [s]
      | Some m => take m s :: splitLoop n' (drop (m + String.length sep) s) sep
      end
  end.

(** [Split s sep = genSplit(s, sep, 0, -1)]. *)
Definition Split (s sep : string) : list string :=
  match sep with
  | "" => explode s
  | _ => splitLoop (Count s sep) s sep
  end.

(** [indexFunc s f truth]: the index of the first rune [r] with
    [f r = truth]. *)
Fixpoint indexFuncLoop (f : Z -> bool) (truth : bool)
         (rs : list (Z * string)) (i : nat) : option nat :=
  match rs with
  | [] => None
  | (r, bytes) :: rs' =>
      if Bool.eqb (f r) truth then Some i
      else indexFuncLoop f truth rs' (i + String.length bytes)
  end.

Definition indexFunc (s : string) (f : Z -> bool) (truth : bool) : option nat :=
  indexFuncLoop f truth (runes s) 0.

(** [lastIndexFunc s f truth]: the same from the end; [i] goes down by
    the width of a rune, at least one, at each iteration. *)
Fixpoint lastIndexFuncLoop (fuel : nat) (s : string) (f : Z -> bool)
         (truth : bool) (i : nat) : option nat :=
  match fuel with
  | O => None
  | S fuel' =>
      if (0 <? i)%nat then
        let '(r, size) := utf8.DecodeLastRuneInString (take i s) in
        let i := (i - size)%nat in
        if Bool.eqb (f r) truth then Some i
        else lastIndexFuncLoop fuel' s f truth i
      else None
  end.

Definition lastIndexFunc (s : string) (f : Z -> bool) (truth : bool)
  : option nat :=
  lastIndexFuncLoop (S (String.length s)) s f truth (String.length s).

Definition TrimLeftFunc (s : string) (f : Z -> bool) : string :=
  match indexFunc s f false with
  | None => ""
  | Some i => drop i s
  end.

Definition TrimRightFunc (s : string) (f : Z -> bool) : string :=
  match lastIndexFunc s f false with
  | Some i =>
      if utf8.RuneSelf <=? utf8.byteAt s (Z.of_nat i) then
        take (i + snd (utf8.DecodeRuneInString (drop i s))) s
      else take (S i) s
  | None => ""
  end.

Definition TrimFunc (s : string) (f : Z -> bool) : string :=
  TrimRightFunc (TrimLeftFunc s f) f.

(** The second loop of [TrimSpace], on [s[start:]] reversed: [stop] walks
    down from the end while it sees ASCII spaces. *)
Fixpoint trimSpaceStop (back : string) : string :=
  match back with
  | "" => ""
  | String c back' =>
      if utf8.RuneSelf <=? byteZ c then
        TrimRightFunc (reverse back) unicode.IsSpace
      else if asciiSpace c then trimSpaceStop back'
      else reverse back
  end.

(** [TrimSpace s]: [s] without leading and trailing white space.  The
    first loop moves [start] over ASCII spaces and hands over to
    [TrimFunc] at the first byte that is not ASCII. *)
Fixpoint TrimSpace (s : string) : string :=
  match s with
  | "" => ""
  | String c s' =>
      if utf8.RuneSelf <=? byteZ c then TrimFunc s unicode.IsSpace
      else if asciiSpace c then TrimSpace s'
      else trimSpaceStop (reverse s)
  end.

End strings.

(** ** Package strconv *)

Module strconv.

(** The width of an [int]. *)
Definition intSize : Z := 64.

(** The two ways a conversion fails ([NumError.Err]). *)
Inductive NumError : Type :=
| ErrSyntax
| ErrRange.

Definition maxUint64 : Z := 2 ^ 64 - 1.

(** The loop of [ParseUint] for base 10 and [bitSize] bits, on [uint64]
    values: the first digit that overflows ends the loop with a range
    error, before the bytes after it are looked at. *)
Fixpoint parseUintLoop (bitSize : Z) (s : string) (n : Z) : Z * option NumError :=
  match s with
  | "" => (n, None)
  | String c s' =>
      let b := byteZ c in
      if (0x30 <=? b) && (b <=? 0x39) then
        let d := b - 0x30 in
        let cutoff := maxUint64 / 10 + 1 in
        let maxVal := 2 ^ bitSize - 1 in
        if cutoff <=? n then (maxVal, Some ErrRange) else
        let n := (n * 10) mod 2 ^ 64 in
        let n1 := (n + d) mod 2 ^ 64 in
        if (n1 <? n) || (maxVal <? n1) then (maxVal, Some ErrRange)
        else parseUintLoop bitSize s' n1
      else (0, Some ErrSyntax)
  end.

(** [ParseUint s 10 bitSize], for [bitSize] 0 (an [int]) or 1 to 64. *)
Definition ParseUint (s : string) (bitSize : Z) : Z * option NumError :=
  match s with
  | "" => (0, Some ErrSyntax)
  | _ =>
      let bitSize := if bitSize =? 0 then intSize else bitSize in
      parseUintLoop bitSize s 0
  end.

(** [ParseInt s 10 bitSize]. *)
Definition ParseInt (s : string) (bitSize : Z) : Z * option NumError :=
  match s with
  | "" => (0, Some ErrSyntax)
  | String c s' =>
      let neg := Ascii.eqb c "-" in
      let s := if Ascii.eqb c "+" || neg then s' else s in
      match ParseUint s bitSize with
      | (_, Some ErrSyntax) => (0, Some ErrSyntax)
      | (un, _) =>
          let bitSize := if bitSize =? 0 then intSize else bitSize in
          let cutoff := 2 ^ (bitSize - 1) in
          if negb neg && (cutoff <=? un) then (cutoff - 1, Some ErrRange)
          else if neg && (cutoff <? un) then (- cutoff, Some ErrRange)
          else ((if neg then - un else un), None)
      end
  end.

(** The fast path of [Atoi]: digits only, too few to overflow. *)
Fixpoint atoiLoop (s : string) (n : Z) : option Z :=
  match s with
  | "" => Some n
  | String c s' =>
      let ch := (byteZ c - 0x30) mod 256 in
      if 9 <? ch then None else atoiLoop s' (n * 10 + ch)
  end.

(** [Atoi s]: the value and the error; the value is 0 on a syntax error
    and the nearest [int] on a range error. *)
Definition Atoi (s : string) : Z * option NumError :=
  let sLen := Z.of_nat (String.length s) in
  if (0 <? sLen) && (sLen <? 19) then
    match s with
    | "" => (0, Some ErrSyntax)
    | String c s' =>
        let signed := Ascii.eqb c "-" || Ascii.eqb c "+" in
        let digits := if signed then s' else s in
        if signed && (String.length digits <? 1)%nat then (0, Some ErrSyntax)
        else match atoiLoop digits 0 with
             | None => (0, Some ErrSyntax)
             | Some n => ((if Ascii.eqb c "-" then - n else n), None)
             end
    end
  else ParseInt s 0.

End strconv.

(** ** Package bufio *)

Module bufio.

(** The largest buffer a [Scanner] allocates. *)
Definition MaxScanTokenSize : Z := 64 * 1024.

(** [dropCR]: a line without its final carriage return. *)
Definition dropCR (data : string) : string :=
  match reverse data with
  | String "013" back => reverse back
  | _ => data
  end.

(** [s] cut at each newline: the piece at the front, and the pieces
    after it.  The last piece is what follows the last newline. *)
Fixpoint pieces (s : string) : string * list string :=
  match s with
  | "" => ("", [])
  | String c s' =>
      let '(p, ps) := pieces s' in
      if Ascii.eqb c "010" then ("", p :: ps) else (String c p, ps)
  end.

(** The lines [ScanLines] sees in [s]: every newline-terminated piece,
    and the last piece when it is not empty. *)
Fixpoint dropLastEmpty (ps : list string) : list string :=
  match ps with
  | [] => []
  | [""] => []
  | p :: ps' => p :: dropLastEmpty ps'
  end.

Definition rawLines (s : string) : list string :=
  let '(p, ps) := pieces s in dropLastEmpty (p :: ps).

(** A line is delivered only when it fits the buffer with its newline
    missing or present: the scan of a line of [MaxScanTokenSize] bytes
    or more stops with [ErrTooLong], for good. *)
Fixpoint takeFitting (ls : list string) : list string :=
  match ls with
  | [] => []
  | l :: ls' =>
      if Z.of_nat (String.length l) <? MaxScanTokenSize
      then l :: takeFitting ls'
      else []
  end.

(** The successive values of [scanner.Text()] for which [scanner.Scan()]
    returns true, for [scanner := bufio.NewScanner(bytes.NewReader(data))]
    with the default split function [ScanLines] and the default buffer. *)
Definition Tokens (data : string) : list string :=
  map dropCR (takeFitting (rawLines data)).

End bufio.

(** ** Errors *)

(** The error values the client sees and builds: the [*exec.ExitError] of a
    process that ran and exited unsuccessfully, with its exit code; any other
    error with a message (what [errors.New] and [fmt.Errorf] without [%w]
    build, and what a process that could not be started gives); and the
    error [fmt.Errorf] builds around the operand of a [%w]. *)
Inductive error : Type :=
| ExitError (code : Z) (msg : string)
| errorString (msg : string)
| wrapError (msg : string) (err : error).

(** The method [Error()]. *)
Definition Error (e : error) : string :=
  match e with
  | ExitError _ msg => msg
  | errorString msg => msg
  | wrapError msg _ => msg
  end.

(** [errors.Unwrap]. *)
Definition Unwrap (e : error) : option error :=
  match e with
  | wrapError _ err => Some err
  | _ => None
  end.

(** ** The client *)

Record ProgramInfo : Type := {
  Name : string;
  Description : string;
  State : Z;
  StateName : string;
  PID : Z;
  Uptime : string
}.

(** The zero value [ProgramInfo{}]. *)
Definition zeroProgramInfo : ProgramInfo :=
  {| Name := ""; Description := ""; State := 0; StateName := "";
     PID := 0; Uptime := "" |}.

(** The interface [Cmd]: what [Run()] and [Output()] return. *)
Record Cmd : Type := {
  Run : option error;
  Output : string * option error
}.

(** The interface [CommandExecutor]; an executor may keep state, which a
    call of [Command] updates. *)
Class CommandExecutor (E : Type) : Type :=
  Command : E -> string -> list string -> Cmd * E.

Record Client (E : Type) : Type := {
  configFile : string;
  commandExecutor : E
}.

Arguments configFile {E} _.
Arguments commandExecutor {E} _.

Record StatusOptions : Type := {
  Names : list string
}.

(** The map literal [stateMap] of [parseStatusLine], and the lookup
    [stateMap[state]] with its [ok]. *)
Definition stateMap : list (string * Z) :=
  [ ("STOPPED", 0);
    ("STARTING", 10);
    ("RUNNING", 20);
    ("BACKOFF", 30);
    ("STOPPING", 40);
    ("EXITED", 100);
    ("FATAL", 200);
    ("UNKNOWN", 1000) ].

Fixpoint mapIndex (m : list (string * Z)) (key : string) : option Z :=
  match m with
  | [] => None
  | (k, v) :: m' => if String.eqb key k then Some v else mapIndex m' key
  end.

(** [parseStatusLine] parses a single line of supervisorctl status output.
    The indices [parts[0]], [parts[1]] are in range after the test on
    [len(parts)], [Split(description, "pid")[1]] is in range because
    [description] contains ["pid"], and the first element of a [Split]
    always exists: no index expression of the function can panic. *)
Definition parseStatusLine (line : string) : ProgramInfo * option error :=
  let parts := strings.Fields line in
  if (List.length parts <? 3)%nat then
    (zeroProgramInfo, Some (errorString ("invalid status line: " ++ line)))
  else
  let name := nth 0 parts "" in
  let state := nth 1 parts "" in
  let description := strings.Join (skipn 2 parts) " " in
  if strings.Contains description "no such process" then
    ({| Name := name; Description := "no such process"; State := 1000;
        StateName := "UNKNOWN"; PID := 0; Uptime := "" |}, None)
  else
  match mapIndex stateMap state with
  | None => (zeroProgramInfo, Some (errorString ("unknown state: " ++ state)))
  | Some stateCode =>
      let '(pid, uptime) :=
        if strings.Contains description "pid" then
          let pidStr := nth 1 (strings.Split description "pid") "" in
          let pidStr := strings.TrimSpace (nth 0 (strings.Split pidStr ",") "") in
          let pid := fst (strconv.Atoi pidStr) in
          let uptime :=
            if strings.Contains description "uptime" then
              let uptimeParts := strings.Split description "uptime" in
              if (1 <? List.length uptimeParts)%nat then
                strings.TrimSpace
                  (nth 0 (strings.Split (nth 1 uptimeParts "") ",") "")
              else ""
            else "" in
          (pid, uptime)
        else (0, "") in
      ({| Name := name; Description := description; State := stateCode;
          StateName := state; PID := pid; Uptime := uptime |}, None)
  end.

(** The loop [for scanner.Scan() { ... }] of [Status] over the lines the
    scanner delivers; [programs] is the slice built so far. *)
Fixpoint scanLoop (lines : list string) (programs : list ProgramInfo)
  : list ProgramInfo * option error :=
  match lines with
  | [] => (programs, None)
  | line :: lines' =>
      match parseStatusLine line with
      | (_, Some err) =>
          ([], Some (wrapError ("failed to parse status line: " ++ Error err) err))
      | (program, None) => scanLoop lines' (programs ++ [program])
      end
  end.

(** [Status] returns the status of supervisor programs; a [nil] slice is
    the empty list. *)
Definition Status {E} `{CommandExecutor E} (c : Client E) (opts : StatusOptions)
  : (list ProgramInfo * option error) * E :=
  let args := ["status"] in
  let args := if (0 <? List.length (Names opts))%nat
              then (args ++ Names opts)%list else args in
  let args := if negb (String.eqb (configFile c) "")
              then (["-c"; configFile c] ++ args)%list else args in
  let '(cmd, ex) := Command (commandExecutor c) "supervisorctl" args in
  let '(output, err) := Output cmd in
  let failed :=
    match err with
    | Some (ExitError code _ as e) =>
        if (code =? 3) || (code =? 4) then None
        else Some (wrapError ("failed to get status: " ++ Error e
                              ++ " - output " ++ output ++ " ") e)
    | Some e => Some (wrapError ("failed to get status: " ++ Error e) e)
    | None => None
    end in
  match failed with
  | Some e => (([], Some e), ex)
  | None => (scanLoop (bufio.Tokens output) [], ex)
  end.

(** [Start] starts a supervisor program. *)
Definition Start {E} `{CommandExecutor E} (c : Client E) (programName : string)
  : option error * E :=
  let args := ["start"; programName] in
  let args := if negb (String.eqb (configFile c) "")
              then (["-c"; configFile c] ++ args)%list else args in
  let '(cmd, ex) := Command (commandExecutor c) "supervisorctl" args in
  match Run cmd with
  | Some err => (Some (wrapError ("failed to start program: " ++ Error err) err), ex)
  | None => (None, ex)
  end.

(** [Stop] stops a supervisor program. *)
Definition Stop {E} `{CommandExecutor E} (c : Client E) (programName : string)
  : option error * E :=
  let args := ["stop"; programName] in
  let args := if negb (String.eqb (configFile c) "")
              then (["-c"; configFile c] ++ args)%list else args in
  let '(cmd, ex) := Command (commandExecutor c) "supervisorctl" args in
  match Run cmd with
  | Some err => (Some (wrapError ("failed to stop program: " ++ Error err) err), ex)
  | None => (None, ex)
  end.

(** [Restart] restarts a supervisor program. *)
Definition Restart {E} `{CommandExecutor E} (c : Client E) (programName : string)
  : option error * E :=
  let args := ["restart"; programName] in
  let args := if negb (String.eqb (configFile c) "")
              then (["-c"; configFile c] ++ args)%list else args in
  let '(cmd, ex) := Command (commandExecutor c) "supervisorctl" args in
  match Run cmd with
  | Some err => (Some (wrapError ("failed to restart program: " ++ Error err) err), ex)
  | None => (None, ex)
  end.

(** The executor of the tests, [MockCommandExecutor]: it records every call
    of [Command] and answers with the [Cmd] it was set up to return. *)
Record MockCommandExecutor : Type := {
  Calls : list (string * list string);
  Return : string -> list string -> Cmd
}.

#[export] Instance MockCommand : CommandExecutor MockCommandExecutor :=
  fun m name arg =>
    (Return m name arg,
     {| Calls := (Calls m ++ [(name, arg)])%list; Return := Return m |}).

(** ** The vocabulary of the specification *)

(** The fixed enumeration of state codes and names (section 3). *)
Definition stateTable : list (Z * string) :=
  [ (0, "STOPPED"); (10, "STARTING"); (20, "RUNNING"); (30, "BACKOFF");
    (40, "STOPPING"); (100, "EXITED"); (200, "FATAL"); (1000, "UNKNOWN") ].

(** The argument shapes of section 6: [[-c <configFile>] <subcommand ...>]. *)
Definition invocation (config : string) (subcommand : list string) : list string :=
  match config with
  | "" => subcommand
  | _ => "-c" :: config :: subcommand
  end.

(** The results of [Output] after which [Status] reads the output: no
    error, or an exit with code 3 or 4. *)
Definition tolerated (err : option error) : bool :=
  match err with
  | None => true
  | Some (ExitError code _) => (code =? 3) || (code =? 4)
  | Some _ => false
  end.

(** What a control operation returns for the [Cmd] it ran: the error of
    [Run], wrapped, or [nil]. *)
Definition controlResult (action : string) (cmd : Cmd) : option error :=
  match Run cmd with
  | Some err =>
      Some (wrapError ("failed to " ++ action ++ " program: " ++ Error err) err)
  | None => None
  end.

(** [before s sep] is [s] up to the first [sep], all of [s] when there is
    none; [after s sep] is what follows the first [sep]. *)
Definition before (s sep : string) : string :=
  match strings.Index s sep with
  | Some i => take i s
  | None => s
  end.

Definition after (s sep : string) : string :=
  match strings.Index s sep with
  | Some i => drop (i + String.length sep) s
  | None => ""
  end.

(** Every byte of [s] satisfies [p]. *)
Fixpoint allb (p : ascii -> bool) (s : string) : bool :=
  match s with
  | "" => true
  | String c s' => p c && allb p s'
  end.

(** [c] occurs in [s]. *)
Fixpoint mem (c : ascii) (s : string) : bool :=
  match s with
  | "" => false
  | String c' s' => Ascii.eqb c' c || mem c s'
  end.

Definition isDigit (c : ascii) : bool :=
  (0x30 <=? byteZ c) && (byteZ c <=? 0x39).

(** A decimal numeral: one digit or more. *)
Definition isNumeral (s : string) : bool :=
  negb (String.eqb s "") && allb isDigit s.

(** The number a decimal numeral denotes. *)
Fixpoint numeralLoop (s : string) (n : Z) : Z :=
  match s with
  | "" => n
  | String c s' => numeralLoop s' (10 * n + (byteZ c - 0x30))
  end.

Definition numeral (s : string) : Z := numeralLoop s 0.

(** An optionally signed decimal numeral, and the integer it denotes. *)
Definition isSign (c : ascii) : bool := Ascii.eqb c "-" || Ascii.eqb c "+".

Definition isInteger (s : string) : bool :=
  match s with
  | "" => false
  | String c s' => if isSign c then isNumeral s' else isNumeral s
  end.

Definition integer (s : string) : Z :=
  match s with
  | "" => 0
  | String c s' =>
      if Ascii.eqb c "-" then - numeral s'
      else if Ascii.eqb c "+" then numeral s'
      else numeral s
  end.

(** The bytes of an integer: digits and signs. *)
Definition numByte (c : ascii) : bool := isDigit c || isSign c.

(** The bytes a list of runes was decoded from. *)
Fixpoint bytesOf (rs : list (Z * string)) : string :=
  match rs with
  | [] => ""
  | (_, bytes) :: rs' => bytes ++ bytesOf rs'
  end.

(** No rune of [s], as Go decodes it, is white space. *)
Definition noSpace (s : string) : bool :=
  forallb (fun rb => negb (unicode.IsSpace (fst rb))) (strings.runes s).

(** A word: one byte or more, and no white space. *)
Definition isWord (s : string) : bool :=
  negb (String.eqb s "") && noSpace s.

(** An ASCII byte that is not white space. *)
Definition wordByte (c : ascii) : bool :=
  (byteZ c <? utf8.RuneSelf) && negb (strings.asciiSpace c).

(** The bounds of an [int]. *)
Definition maxInt : Z := 2 ^ (strconv.intSize - 1) - 1.
Definition minInt : Z := - 2 ^ (strconv.intSize - 1).

(** [strings.Repeat s count] and the newline, to write inputs down. *)
Definition Repeat (s : string) (count : Z) : string :=
  Z.iter count (String.append s) "".

Definition newline : string := String "010" "".

(** A line, with its carriage return if it has one, is short enough for
    the scanner. *)
Definition fits (l : string) : Prop :=
  Z.of_nat (String.length l) < bufio.MaxScanTokenSize.

(** The lines of an output as a reader sees them: the text between
    newlines, the last line with or without a newline after it, each
    without its carriage return if it ends with one. *)
Definition textLines (output : string) : list string :=
  map bufio.dropCR (bufio.rawLines output).

(** A status line for a record, in the format of the tool: the name, the
    state name and the description, separated by single spaces. *)
Definition formatStatusLine (info : ProgramInfo) : string :=
  Name info ++ " " ++ StateName info ++ " " ++ Description info.

(** The lines [ls], each followed by the line ending [eol]. *)
Fixpoint terminated (ls : list string) (eol : string) : string :=
  match ls with
  | [] => ""
  | l :: ls' => l ++ eol ++ terminated ls' eol
  end.

(** The line ending of a text written on Windows. *)
Definition crlf : string := String "013" newline.

(** A line of text that a scanner hands over as it is: it is not empty,
    holds no newline and no carriage return, and fits the buffer with a
    carriage return after it. *)
Definition plainLine (l : string) : Prop :=
  l <> "" /\ mem "010" l = false /\ mem "013" l = false
  /\ Z.of_nat (String.length l) + 1 < bufio.MaxScanTokenSize.

(** The digits a text begins with. *)
Fixpoint digitsPrefix (s : string) : string :=
  match s with
  | "" => ""
  | String c s' => if isDigit c then String c (digitsPrefix s') else ""
  end.

(** The digits a text begins with, after its sign if it has one. *)
Definition leadingDigits (s : string) : string :=
  match s with
  | "" => ""
  | String c s' => if isSign c then digitsPrefix s' else digitsPrefix s
  end.

(** * Properties *)

(** Case analysis on the tests and on the strings a function scrutinises. *)
Ltac case_test :=
  match goal with
  | |- context [match ?t with "" => _ | String _ _ => _ end] =>
      is_var t; destruct t
  | |- context [if ?t then _ else _] => destruct t
  end.

(** ** The cases of [supervisor_test.go] *)

Example test_parse_running_program :
  parseStatusLine "program1 RUNNING pid 123, uptime 1:23:45"
  = ({| Name := "program1"; Description := "pid 123, uptime 1:23:45";
        State := 20; StateName := "RUNNING"; PID := 123; Uptime := "1:23:45" |},
     None).
Proof. reflexivity. Qed.

Example test_parse_stopped_program :
  parseStatusLine "program2 STOPPED not started"
  = ({| Name := "program2"; Description := "not started"; State := 0;
        StateName := "STOPPED"; PID := 0; Uptime := "" |}, None).
Proof. reflexivity. Qed.

Example test_parse_no_such_process :
  parseStatusLine "program3 ERROR (no such process)"
  = ({| Name := "program3"; Description := "no such process"; State := 1000;
        StateName := "UNKNOWN"; PID := 0; Uptime := "" |}, None).
Proof. reflexivity. Qed.

Example test_parse_invalid_line :
  option_map Error (snd (parseStatusLine "invalid"))
  = Some "invalid status line: invalid".
Proof. reflexivity. Qed.

Example test_status_command_error :
  let mockCmd := {| Run := Some (errorString "command failed");
                    Output := ("", Some (errorString "command failed")) |} in
  let client := {| configFile := "";
                   commandExecutor := {| Calls := []; Return := fun _ _ => mockCmd |} |} in
  fst (Status client {| Names := [] |})
  = ([], Some (wrapError "failed to get status: command failed"
                         (errorString "command failed")))
  /\ Calls (snd (Status client {| Names := [] |})) = [("supervisorctl", ["status"])].
Proof. split; reflexivity. Qed.

Example test_start_command_error :
  let mockCmd := {| Run := Some (errorString "command failed"); Output := ("", None) |} in
  let client := {| configFile := "";
                   commandExecutor := {| Calls := []; Return := fun _ _ => mockCmd |} |} in
  fst (Start client "program1")
  = Some (wrapError "failed to start program: command failed"
                    (errorString "command failed"))
  /\ Calls (snd (Start client "program1"))
     = [("supervisorctl", ["start"; "program1"])].
Proof. split; reflexivity. Qed.

(** White space is Unicode white space: a no-break space (the bytes 194,
    160) separates fields as a space does, and other bytes above 127 are
    part of their field. *)
Example fields_unicode :
  strings.Fields ("caf" ++ String "195" (String "169" "")
                  ++ String "194" (String "160" "") ++ "RUNNING  x")
  = ["caf" ++ String "195" (String "169" ""); "RUNNING"; "x"].
Proof. reflexivity. Qed.

Example trimspace_unicode :
  strings.TrimSpace (String "194" (String "160" " x y ")
                     ++ String "226" (String "128" (String "128" "  ")))
  = "x y".
Proof. reflexivity. Qed.

(** [Atoi] reports a number out of range and returns the nearest [int]. *)
Example atoi_out_of_range :
  strconv.Atoi "9223372036854775807" = (9223372036854775807, None)
  /\ strconv.Atoi "9223372036854775808"
     = (9223372036854775807, Some strconv.ErrRange)
  /\ strconv.Atoi "-9223372036854775809"
     = (-9223372036854775808, Some strconv.ErrRange)
  /\ strconv.Atoi "12a" = (0, Some strconv.ErrSyntax).
Proof. repeat split. Qed.

(** The scanner delivers a line of 65535 bytes and stops at one of 65536. *)
Example scanner_token_limit :
  List.length (bufio.Tokens (Repeat "x" 65535 ++ newline ++ "y")) = 2%nat
  /\ List.length (bufio.Tokens (Repeat "x" 65536 ++ newline ++ "y")) = 0%nat.
Proof. split; vm_compute; reflexivity. Qed.

(** ** Strings *)

Section StringFacts.

Lemma append_nil_r : forall s, s ++ "" = s.
Proof. induction s as [|c s IH]; simpl; [reflexivity | now rewrite IH]. Qed.

Lemma append_assoc : forall s t u, (s ++ t) ++ u = s ++ t ++ u.
Proof. induction s as [|c s IH]; intros; simpl; [reflexivity | now rewrite IH]. Qed.

Lemma length_append : forall s t,
    String.length (s ++ t) = (String.length s + String.length t)%nat.
Proof. induction s as [|c s IH]; intros; simpl; [reflexivity | now rewrite IH]. Qed.

Lemma take_append : forall s t, take (String.length s) (s ++ t) = s.
Proof. induction s as [|c s IH]; intros; simpl; [now destruct t | now rewrite IH]. Qed.

Lemma drop_append : forall s t, drop (String.length s) (s ++ t) = t.
Proof. induction s as [|c s IH]; intros; simpl; [reflexivity | apply IH]. Qed.

Lemma drop_add : forall n m s, drop (n + m) s = drop m (drop n s).
Proof.
  induction n as [|n IH]; intros m s; simpl; [reflexivity|].
  destruct s as [|c s]; [now destruct m | apply IH].
Qed.

Lemma HasPrefix_append : forall p s, strings.HasPrefix (p ++ s) p = true.
Proof.
  induction p as [|c p IH]; intros; simpl; [reflexivity|].
  now rewrite Ascii.eqb_refl, IH.
Qed.

Lemma Index_prefix : forall p s, strings.Index (p ++ s) p = Some 0%nat.
Proof.
  intros p s. destruct p as [|c p]; [now destruct s|].
  change (strings.Index (String c p ++ s) (String c p))
    with (if strings.HasPrefix (String c p ++ s) (String c p) then Some 0%nat
          else option_map S (strings.Index (p ++ s) (String c p))).
  now rewrite HasPrefix_append.
Qed.

(** A string contains each of its suffixes. *)
Lemma Contains_suffix : forall p s, strings.Contains (p ++ s) s = true.
Proof.
  unfold strings.Contains. induction p as [|c p IH]; intros s.
  - simpl. rewrite <- (append_nil_r s) at 1. now rewrite Index_prefix.
  - change (strings.Index (String c p ++ s) s)
      with (if strings.HasPrefix (String c (p ++ s)) s then Some 0%nat
            else option_map S (strings.Index (p ++ s) s)).
    destruct (strings.HasPrefix (String c (p ++ s)) s); [reflexivity|].
    specialize (IH s). destruct (strings.Index (p ++ s) s); [reflexivity | discriminate].
Qed.

End StringFacts.

(** ** The four ways through [parseStatusLine] *)

Section ParseCases.

Variable line : string.

Let parts := strings.Fields line.
Let state := nth 1 parts "".
Let description := strings.Join (skipn 2 parts) " ".

Lemma parse_invalid :
  (List.length parts < 3)%nat ->
  parseStatusLine line
  = (zeroProgramInfo, Some (errorString ("invalid status line: " ++ line))).
Proof.
  intros Hlen. unfold parseStatusLine. fold parts.
  apply Nat.ltb_lt in Hlen. now rewrite Hlen.
Qed.

Lemma parse_no_such_process :
  (3 <= List.length parts)%nat ->
  strings.Contains description "no such process" = true ->
  parseStatusLine line
  = ({| Name := nth 0 parts ""; Description := "no such process";
        State := 1000; StateName := "UNKNOWN"; PID := 0; Uptime := "" |}, None).
Proof.
  intros Hlen Hnsp. unfold parseStatusLine. fold parts. fold description.
  apply Nat.ltb_ge in Hlen. now rewrite Hlen, Hnsp.
Qed.

Lemma parse_unknown_state :
  (3 <= List.length parts)%nat ->
  strings.Contains description "no such process" = false ->
  mapIndex stateMap state = None ->
  parseStatusLine line
  = (zeroProgramInfo, Some (errorString ("unknown state: " ++ state))).
Proof.
  intros Hlen Hnsp Hstate. unfold parseStatusLine.
  fold parts. fold description. fold state.
  apply Nat.ltb_ge in Hlen. now rewrite Hlen, Hnsp, Hstate.
Qed.

Lemma parse_known_state : forall stateCode,
  (3 <= List.length parts)%nat ->
  strings.Contains description "no such process" = false ->
  mapIndex stateMap state = Some stateCode ->
  exists pid uptime,
    parseStatusLine line
    = ({| Name := nth 0 parts ""; Description := description;
          State := stateCode; StateName := state;
          PID := pid; Uptime := uptime |}, None).
Proof.
  intros stateCode Hlen Hnsp Hstate. unfold parseStatusLine.
  fold parts. fold description. fold state.
  apply Nat.ltb_ge in Hlen. rewrite Hlen, Hnsp, Hstate.
  match goal with
  | |- context [let '(_, _) := ?p in _] => destruct p as [pid uptime]
  end.
  now exists pid, uptime.
Qed.

(** The same with the two fields written out, when the description has a
    pid marker. *)
Lemma parse_known_state_pid : forall stateCode,
  (3 <= List.length parts)%nat ->
  strings.Contains description "no such process" = false ->
  mapIndex stateMap state = Some stateCode ->
  strings.Contains description "pid" = true ->
  parseStatusLine line
  = ({| Name := nth 0 parts ""; Description := description;
        State := stateCode; StateName := state;
        PID := fst (strconv.Atoi
                 (strings.TrimSpace
                    (nth 0 (strings.Split
                              (nth 1 (strings.Split description "pid") "") ",") "")));
        Uptime :=
          if strings.Contains description "uptime" then
            if (1 <? List.length (strings.Split description "uptime"))%nat then
              strings.TrimSpace
                (nth 0 (strings.Split
                          (nth 1 (strings.Split description "uptime") "") ",") "")
            else ""
          else "" |}, None).
Proof.
  intros stateCode Hlen Hnsp Hstate Hpid. unfold parseStatusLine.
  fold parts. fold description. fold state.
  apply Nat.ltb_ge in Hlen. now rewrite Hlen, Hnsp, Hstate, Hpid.
Qed.

Lemma parse_known_state_nopid : forall stateCode,
  (3 <= List.length parts)%nat ->
  strings.Contains description "no such process" = false ->
  mapIndex stateMap state = Some stateCode ->
  strings.Contains description "pid" = false ->
  parseStatusLine line
  = ({| Name := nth 0 parts ""; Description := description;
        State := stateCode; StateName := state; PID := 0; Uptime := "" |}, None).
Proof.
  intros stateCode Hlen Hnsp Hstate Hpid. unfold parseStatusLine.
  fold parts. fold description. fold state.
  apply Nat.ltb_ge in Hlen. now rewrite Hlen, Hnsp, Hstate, Hpid.
Qed.

End ParseCases.

(** The keys of [stateMap] are the eight state names, each with its code. *)
Lemma mapIndex_stateMap_Some : forall state stateCode,
  mapIndex stateMap state = Some stateCode -> In (stateCode, state) stateTable.
Proof.
  intros state stateCode. unfold stateMap, stateTable, mapIndex.
  repeat match goal with
         | |- context [String.eqb state ?k] =>
             destruct (String.eqb_spec state k) as [->|_];
             [intros [= <-]; simpl; tauto|]
         end.
  discriminate.
Qed.

Lemma mapIndex_stateMap_None : forall state,
  mapIndex stateMap state = None <->
  ~ In state ["STOPPED"; "STARTING"; "RUNNING"; "BACKOFF";
              "STOPPING"; "EXITED"; "FATAL"; "UNKNOWN"].
Proof.
  intros state. unfold stateMap, mapIndex. split.
  - repeat match goal with
           | |- context [String.eqb state ?k] =>
               destruct (String.eqb_spec state k) as [->|?]; [discriminate|]
           end.
    intros _ Hin. simpl in Hin. intuition congruence.
  - intros Hnot.
    repeat match goal with
           | |- context [String.eqb state ?k] =>
               destruct (String.eqb_spec state k) as [->|?];
               [exfalso; apply Hnot; simpl; tauto|]
           end.
    reflexivity.
Qed.

(** ** The parser: sentinel, errors and the state table *)

(** C1.  Whenever a line splits into at least three fields and its rejoined
    description contains "no such process", [parseStatusLine] succeeds with
    State 1000, StateName "UNKNOWN", Description "no such process", PID 0 and
    an empty Uptime; the state token plays no part, in or out of the table. *)
Theorem C1_no_such_process_sentinel : forall line,
  (3 <= List.length (strings.Fields line))%nat ->
  strings.Contains (strings.Join (skipn 2 (strings.Fields line)) " ")
                   "no such process" = true ->
  exists info,
    parseStatusLine line = (info, None)
    /\ Name info = nth 0 (strings.Fields line) ""
    /\ State info = 1000
    /\ StateName info = "UNKNOWN"
    /\ Description info = "no such process"
    /\ PID info = 0
    /\ Uptime info = "".
Proof.
  intros line Hlen Hnsp.
  rewrite (parse_no_such_process line Hlen Hnsp).
  eexists. split; [reflexivity|]. simpl. repeat split.
Qed.

Lemma C1_witness :
  mapIndex stateMap "ERROR" = None
  /\ exists info,
       parseStatusLine "program3 ERROR (no such process)" = (info, None)
       /\ Name info = "program3"
       /\ State info = 1000
       /\ StateName info = "UNKNOWN"
       /\ Description info = "no such process"
       /\ PID info = 0
       /\ Uptime info = "".
Proof.
  split; [reflexivity|].
  apply (C1_no_such_process_sentinel "program3 ERROR (no such process)").
  - vm_compute. lia.
  - reflexivity.
Defined.

(** C3.  [parseStatusLine] returns an error exactly when (a) the line has
    fewer than three fields, and then the error is "invalid status line: "
    followed by the line, so that its message contains the line verbatim; or
    (b) the line has three fields or more, its description does not contain
    "no such process" and the second field is none of the eight state names,
    and then the error is "unknown state: " followed by that field. *)
Theorem C3_parse_errors : forall line,
  let parts := strings.Fields line in
  let state := nth 1 parts "" in
  let description := strings.Join (skipn 2 parts) " " in
  let unknown :=
    ~ In state ["STOPPED"; "STARTING"; "RUNNING"; "BACKOFF";
                "STOPPING"; "EXITED"; "FATAL"; "UNKNOWN"] in
  ((exists err, snd (parseStatusLine line) = Some err) <->
   ((List.length parts < 3)%nat \/
    ((3 <= List.length parts)%nat
     /\ strings.Contains description "no such process" = false
     /\ unknown)))
  /\ ((List.length parts < 3)%nat ->
      exists err,
        snd (parseStatusLine line) = Some err
        /\ Error err = "invalid status line: " ++ line
        /\ strings.Contains (Error err) line = true)
  /\ ((3 <= List.length parts)%nat ->
      strings.Contains description "no such process" = false ->
      unknown ->
      exists err,
        snd (parseStatusLine line) = Some err
        /\ Error err = "unknown state: " ++ state
        /\ strings.Contains (Error err) state = true).
Proof.
  intros line parts state description unknown.
  assert (Hinvalid : (List.length parts < 3)%nat ->
                     snd (parseStatusLine line)
                     = Some (errorString ("invalid status line: " ++ line))).
  { intros Hlen. now rewrite (parse_invalid line Hlen). }
  assert (Hunknown : (3 <= List.length parts)%nat ->
                     strings.Contains description "no such process" = false ->
                     unknown ->
                     snd (parseStatusLine line)
                     = Some (errorString ("unknown state: " ++ state))).
  { intros Hlen Hnsp Hun. apply mapIndex_stateMap_None in Hun.
    now rewrite (parse_unknown_state line Hlen Hnsp Hun). }
  split; [split|split].
  - intros [err Herr].
    destruct (Nat.lt_ge_cases (List.length parts) 3) as [Hlen|Hlen]; [now left|].
    right. split; [exact Hlen|].
    destruct (strings.Contains description "no such process") eqn:Hnsp.
    + rewrite (parse_no_such_process line Hlen Hnsp) in Herr. discriminate.
    + split; [reflexivity|].
      destruct (mapIndex stateMap state) as [stateCode|] eqn:Hstate.
      * destruct (parse_known_state line stateCode Hlen Hnsp Hstate)
          as (pid & uptime & Hparse).
        rewrite Hparse in Herr. discriminate.
      * now apply mapIndex_stateMap_None.
  - intros [Hlen|(Hlen & Hnsp & Hun)]; eexists; eauto.
  - intros Hlen. eexists. split; [now apply Hinvalid|].
    split; [reflexivity|]. apply Contains_suffix.
  - intros Hlen Hnsp Hun. eexists. split; [now apply Hunknown|].
    split; [reflexivity|]. apply Contains_suffix.
Qed.

Lemma C3_witness :
  (exists err,
      snd (parseStatusLine "invalid") = Some err
      /\ Error err = "invalid status line: invalid"
      /\ strings.Contains (Error err) "invalid" = true)
  /\ (exists err,
         snd (parseStatusLine "prog WEIRD blah") = Some err
         /\ Error err = "unknown state: WEIRD"
         /\ strings.Contains (Error err) "WEIRD" = true).
Proof.
  split.
  - apply (proj1 (proj2 (C3_parse_errors "invalid"))).
    vm_compute. lia.
  - apply (proj2 (proj2 (C3_parse_errors "prog WEIRD blah"))).
    + vm_compute. lia.
    + reflexivity.
    + vm_compute. intuition discriminate.
Defined.

(** C4.  The State and StateName of every record [parseStatusLine] returns
    without an error are a pair of the fixed table.  A state token outside
    the table never yields a record carrying a state of its own or the zero
    value of the map lookup: the line is either an error, or the "no such
    process" sentinel with the pair (1000, UNKNOWN). *)
Theorem C4_state_pair_in_table : forall line info,
  parseStatusLine line = (info, None) ->
  In (State info, StateName info) stateTable
  /\ (mapIndex stateMap (nth 1 (strings.Fields line) "") = None ->
      strings.Contains (strings.Join (skipn 2 (strings.Fields line)) " ")
                       "no such process" = true
      /\ State info = 1000
      /\ StateName info = "UNKNOWN"
      /\ Description info = "no such process").
Proof.
  intros line info Hparse.
  destruct (Nat.lt_ge_cases (List.length (strings.Fields line)) 3) as [Hlen|Hlen].
  { rewrite (parse_invalid line Hlen) in Hparse. discriminate. }
  destruct (strings.Contains (strings.Join (skipn 2 (strings.Fields line)) " ")
                             "no such process") eqn:Hnsp.
  { rewrite (parse_no_such_process line Hlen Hnsp) in Hparse.
    injection Hparse as <-. simpl. split; [tauto | intros _; repeat split]. }
  destruct (mapIndex stateMap (nth 1 (strings.Fields line) "")) as [stateCode|] eqn:Hstate.
  - destruct (parse_known_state line stateCode Hlen Hnsp Hstate)
      as (pid & uptime & Hknown).
    rewrite Hknown in Hparse. injection Hparse as <-. simpl.
    split; [now apply mapIndex_stateMap_Some | discriminate].
  - rewrite (parse_unknown_state line Hlen Hnsp Hstate) in Hparse. discriminate.
Qed.

Lemma C4_witness :
  In (20, "RUNNING") stateTable
  /\ In (1000, "UNKNOWN") stateTable
  /\ snd (parseStatusLine "prog WEIRD blah") <> None.
Proof.
  split; [|split].
  - exact (proj1 (C4_state_pair_in_table
                    "program1 RUNNING pid 123, uptime 1:23:45" _ eq_refl)).
  - exact (proj1 (C4_state_pair_in_table
                    "program3 ERROR (no such process)" _ eq_refl)).
  - vm_compute. discriminate.
Defined.

(** ** The invoker: argument lists *)

Section Invoker.

Context {E : Type} `{CommandExecutor E}.

Variable c : Client E.

(** What the two steps that build [args] amount to. *)
Lemma status_subcommand : forall names : list string,
  (if (0 <? List.length names)%nat then (["status"] ++ names)%list else ["status"])
  = "status" :: names.
Proof. now destruct names. Qed.

Lemma config_prefix : forall args : list string,
  (if negb (String.eqb (configFile c) "")
   then (["-c"; configFile c] ++ args)%list else args)
  = invocation (configFile c) args.
Proof. intros args. unfold invocation. now destruct (configFile c). Qed.

(** [Status] is one [Command] for [supervisorctl], then one [Output]. *)
Lemma Status_unfold : forall opts,
  Status c opts =
  let '(cmd, ex) := Command (commandExecutor c) "supervisorctl"
                      (invocation (configFile c) ("status" :: Names opts)) in
  match Output cmd with
  | (output, Some (ExitError code msg)) =>
      if (code =? 3) || (code =? 4)
      then (scanLoop (bufio.Tokens output) [], ex)
      else (([], Some (wrapError ("failed to get status: " ++ msg
                                  ++ " - output " ++ output ++ " ")
                                 (ExitError code msg))), ex)
  | (output, Some err) =>
      (([], Some (wrapError ("failed to get status: " ++ Error err) err)), ex)
  | (output, None) => (scanLoop (bufio.Tokens output) [], ex)
  end.
Proof.
  intros opts. unfold Status.
  rewrite status_subcommand, config_prefix.
  destruct (Command _ _ _) as [cmd ex].
  destruct (Output cmd) as [output [[code msg|msg|msg err]|]]; simpl; try reflexivity.
  now destruct ((code =? 3) || (code =? 4)).
Qed.

(** A control operation is one [Command] for [supervisorctl], then one
    [Run]. *)
Lemma Start_unfold : forall programName,
  Start c programName =
  let '(cmd, ex) := Command (commandExecutor c) "supervisorctl"
                      (invocation (configFile c) ["start"; programName]) in
  (controlResult "start" cmd, ex).
Proof.
  intros. unfold Start, controlResult. rewrite config_prefix.
  destruct (Command _ _ _) as [cmd ex]. now destruct (Run cmd).
Qed.

Lemma Stop_unfold : forall programName,
  Stop c programName =
  let '(cmd, ex) := Command (commandExecutor c) "supervisorctl"
                      (invocation (configFile c) ["stop"; programName]) in
  (controlResult "stop" cmd, ex).
Proof.
  intros. unfold Stop, controlResult. rewrite config_prefix.
  destruct (Command _ _ _) as [cmd ex]. now destruct (Run cmd).
Qed.

Lemma Restart_unfold : forall programName,
  Restart c programName =
  let '(cmd, ex) := Command (commandExecutor c) "supervisorctl"
                      (invocation (configFile c) ["restart"; programName]) in
  (controlResult "restart" cmd, ex).
Proof.
  intros. unfold Restart, controlResult. rewrite config_prefix.
  destruct (Command _ _ _) as [cmd ex]. now destruct (Run cmd).
Qed.

End Invoker.

(** C6.  [Status] calls [Command] once, for "supervisorctl", with the
    argument list "status" followed by the given names in their order, which
    is just "status" when there are none; when the client has a configuration
    file, the argument list of [Status], [Start], [Stop] and [Restart] alike
    begins with "-c" and the path, before the subcommand. *)
Theorem C6_argument_lists :
  forall (m : MockCommandExecutor) (config : string) (names : list string)
         (programName : string),
    let c := {| configFile := config; commandExecutor := m |} in
    let called args := (Calls m ++ [("supervisorctl", args)])%list in
    (config = "" ->
     Calls (snd (Status c {| Names := names |})) = called ("status" :: names)
     /\ Calls (snd (Status c {| Names := [] |})) = called ["status"])
    /\ (config <> "" ->
        Calls (snd (Status c {| Names := names |}))
        = called ("-c" :: config :: "status" :: names)
        /\ Calls (snd (Start c programName))
           = called ["-c"; config; "start"; programName]
        /\ Calls (snd (Stop c programName))
           = called ["-c"; config; "stop"; programName]
        /\ Calls (snd (Restart c programName))
           = called ["-c"; config; "restart"; programName]).
Proof.
  intros m config names programName c called.
  assert (Hstatus : forall opts,
             Calls (snd (Status c opts))
             = called (invocation config ("status" :: Names opts))).
  { intros opts. rewrite Status_unfold. unfold Command, MockCommand. simpl.
    destruct (Output _) as [output [[code msg|msg|msg err]|]]; try reflexivity.
    now destruct ((code =? 3) || (code =? 4)). }
  split.
  - intros ->. now rewrite !Hstatus.
  - intros Hconfig.
    rewrite Hstatus, Start_unfold, Stop_unfold, Restart_unfold.
    unfold Command, MockCommand, invocation. simpl.
    destruct config; [contradiction | repeat split].
Qed.

Lemma C6_witness :
  let m := {| Calls := [];
              Return := fun _ _ => {| Run := None; Output := ("", None) |} |} in
  Calls (snd (Status {| configFile := ""; commandExecutor := m |}
                     {| Names := ["program1"; "program2"] |}))
  = [("supervisorctl", ["status"; "program1"; "program2"])]
  /\ Calls (snd (Status {| configFile := "/etc/supervisord.conf";
                           commandExecutor := m |}
                        {| Names := ["program1"] |}))
     = [("supervisorctl", ["-c"; "/etc/supervisord.conf"; "status"; "program1"])].
Proof.
  intros m. split.
  - exact (proj1 (proj1 (C6_argument_lists m "" ["program1"; "program2"] "program1")
                        eq_refl)).
  - refine (proj1 (proj2 (C6_argument_lists m "/etc/supervisord.conf"
                                             ["program1"] "program1") _)).
    discriminate.
Defined.

(** C8.  [Start], [Stop] and [Restart] each call [Command] for
    "supervisorctl" with the action and the program name, after "-c" and the
    path if there is a configuration file, and run the command.  They return
    an error exactly when [Run] returns one (the process exited unsuccessfully
    or could not be started); that error wraps the one of [Run]; there is no
    error when [Run] succeeds.  The result is a function of what [Run]
    returned: the output of the command plays no part. *)
Theorem C8_control_operations :
  forall (E : Type) (H : CommandExecutor E) (c : Client E) (programName : string),
    let ran action :=
      Command (commandExecutor c) "supervisorctl"
              (invocation (configFile c) [action; programName]) in
    let wraps action (result : option error) :=
      (Run (fst (ran action)) = None -> result = None)
      /\ (forall err, Run (fst (ran action)) = Some err ->
          exists e, result = Some e
                    /\ Unwrap e = Some err
                    /\ Error e = "failed to " ++ action ++ " program: " ++ Error err)
      /\ ((exists e, result = Some e) <-> (exists err, Run (fst (ran action)) = Some err)) in
    wraps "start" (fst (Start c programName))
    /\ snd (Start c programName) = snd (ran "start")
    /\ wraps "stop" (fst (Stop c programName))
    /\ snd (Stop c programName) = snd (ran "stop")
    /\ wraps "restart" (fst (Restart c programName))
    /\ snd (Restart c programName) = snd (ran "restart").
Proof.
  intros E H c programName ran wraps.
  assert (Hwraps : forall action cmd,
             fst (ran action) = cmd -> wraps action (controlResult action cmd)).
  { intros action cmd Hcmd. unfold wraps, controlResult. rewrite Hcmd.
    destruct (Run cmd) as [err|]; repeat split;
      try discriminate; eauto;
      try (intros [? ?]; discriminate);
      try (intros ? [= <-]; eexists; repeat split). }
  assert (Hlet : forall action (p : Cmd * E),
             (let '(cmd, ex) := p in (controlResult action cmd, ex))
             = (controlResult action (fst p), snd p)).
  { now intros action [cmd ex]. }
  rewrite Start_unfold, Stop_unfold, Restart_unfold, !Hlet.
  cbn [fst snd].
  split; [now apply Hwraps | split; [reflexivity|]].
  split; [now apply Hwraps | split; [reflexivity|]].
  split; [now apply Hwraps | reflexivity].
Qed.

Lemma C8_witness :
  let failing := {| Calls := [];
                    Return := fun _ _ =>
                      {| Run := Some (ExitError 1 "exit status 1");
                         Output := ("", None) |} |} in
  exists e,
    fst (Start {| configFile := ""; commandExecutor := failing |} "program1") = Some e
    /\ Unwrap e = Some (ExitError 1 "exit status 1")
    /\ Error e = "failed to start program: exit status 1".
Proof.
  intros failing.
  exact (proj1 (proj2 (proj1 (C8_control_operations
                                _ _ {| configFile := ""; commandExecutor := failing |}
                                "program1")))
               (ExitError 1 "exit status 1") eq_refl).
Defined.

(** ** The invoker: exit codes of [Status] *)

Lemma Contains_middle : forall p s q, strings.Contains (p ++ s ++ q) s = true.
Proof.
  unfold strings.Contains. induction p as [|c p IH]; intros s q.
  - simpl. now rewrite Index_prefix.
  - change (strings.Index (String c p ++ s ++ q) s)
      with (if strings.HasPrefix (String c (p ++ s ++ q)) s then Some 0%nat
            else option_map S (strings.Index (p ++ s ++ q) s)).
    destruct (strings.HasPrefix (String c (p ++ s ++ q)) s); [reflexivity|].
    specialize (IH s q).
    destruct (strings.Index (p ++ s ++ q) s); [reflexivity | discriminate].
Qed.

(** C5, as the code has it.  When [Output] returns an exit error with code
    3 or 4, [Status] parses the captured output just as it does after a
    successful run.  Any other exit error gives an error that wraps it and
    whose message contains the captured output.  An error that is not an
    exit error (the tool could not be started) gives an error that wraps it,
    with the message "failed to get status: " followed by the message of the
    cause, and nothing of the captured output. *)
Theorem C5_status_exit_codes :
  forall (E : Type) (H : CommandExecutor E) (c : Client E) (opts : StatusOptions)
         (output : string),
    let cmd :=
      fst (Command (commandExecutor c) "supervisorctl"
                   (invocation (configFile c) ("status" :: Names opts))) in
    (Output cmd = (output, None) ->
     fst (Status c opts) = scanLoop (bufio.Tokens output) [])
    /\ (forall code msg,
        Output cmd = (output, Some (ExitError code msg)) ->
        code = 3 \/ code = 4 ->
        fst (Status c opts) = scanLoop (bufio.Tokens output) [])
    /\ (forall code msg,
        Output cmd = (output, Some (ExitError code msg)) ->
        code <> 3 -> code <> 4 ->
        exists e,
          fst (Status c opts) = ([], Some e)
          /\ Unwrap e = Some (ExitError code msg)
          /\ strings.Contains (Error e) msg = true
          /\ strings.Contains (Error e) output = true)
    /\ (forall err,
        Output cmd = (output, Some err) ->
        (forall code msg, err <> ExitError code msg) ->
        exists e,
          fst (Status c opts) = ([], Some e)
          /\ Unwrap e = Some err
          /\ Error e = "failed to get status: " ++ Error err).
Proof.
  intros E H c opts output cmd. subst cmd.
  rewrite Status_unfold.
  destruct (Command _ _ _) as [cmd ex]. cbn [fst].
  split; [|split; [|split]].
  - now intros ->.
  - intros code msg -> [-> | ->]; reflexivity.
  - intros code msg -> H3 H4.
    apply Z.eqb_neq in H3, H4. rewrite H3, H4. cbn [orb fst].
    eexists. split; [reflexivity|]. split; [reflexivity|]. cbn [Error]. split.
    + apply Contains_middle.
    + replace ("failed to get status: " ++ msg ++ " - output " ++ output ++ " ")
        with (("failed to get status: " ++ msg ++ " - output ") ++ output ++ " ")
        by now rewrite !append_assoc.
      apply Contains_middle.
  - intros err -> Hnot. destruct err as [code msg|msg|msg err].
    + now destruct (Hnot code msg).
    + eexists. repeat split.
    + eexists. repeat split.
Qed.

Lemma C5_witness :
  let answering out :=
    {| configFile := "";
       commandExecutor :=
         {| Calls := []; Return := fun _ _ => {| Run := None; Output := out |} |} |} in
  let output := "program1 STOPPED not started" in
  fst (Status (answering (output, Some (ExitError 3 "exit status 3"))) {| Names := [] |})
  = fst (Status (answering (output, None)) {| Names := [] |})
  /\ (exists e,
         fst (Status (answering (output, Some (ExitError 2 "exit status 2")))
                     {| Names := [] |}) = ([], Some e)
         /\ Unwrap e = Some (ExitError 2 "exit status 2")
         /\ strings.Contains (Error e) "exit status 2" = true
         /\ strings.Contains (Error e) output = true).
Proof.
  intros answering output. split.
  - etransitivity.
    + apply (proj1 (proj2 (C5_status_exit_codes
                             _ _ (answering (output, Some (ExitError 3 "exit status 3")))
                             {| Names := [] |} output))
                   3 "exit status 3"); [reflexivity | now left].
    + reflexivity.
  - apply (proj1 (proj2 (proj2 (C5_status_exit_codes
                                  _ _ (answering (output, Some (ExitError 2 "exit status 2")))
                                  {| Names := [] |} output)))
                 2 "exit status 2"); [reflexivity | lia | lia].
Defined.

(** C5 as the specification words it fails where the tool cannot be
    started: the error of [Status] then says nothing of the captured
    output. *)
Lemma C5_counterexample :
  let cause := errorString "fork/exec /usr/bin/supervisorctl: permission denied" in
  let c :=
    {| configFile := "";
       commandExecutor :=
         {| Calls := [];
            Return := fun _ _ =>
              {| Run := Some cause; Output := ("captured", Some cause) |} |} |} in
  exists e,
    fst (Status c {| Names := [] |}) = ([], Some e)
    /\ Unwrap e = Some cause
    /\ Error e
       = "failed to get status: fork/exec /usr/bin/supervisorctl: permission denied"
    /\ strings.Contains (Error e) "captured" = false.
Proof.
  intros cause c. eexists. split; [reflexivity|]. repeat split.
Qed.

(** ** The loop over the lines of the output *)

Lemma takeFitting_app : forall ls ls',
  Forall fits ls ->
  bufio.takeFitting (ls ++ ls') = (ls ++ bufio.takeFitting ls')%list.
Proof.
  induction 1 as [|l ls Hl _ IH]; simpl; [reflexivity|].
  apply Z.ltb_lt in Hl. now rewrite Hl, IH.
Qed.

Lemma takeFitting_all : forall ls, Forall fits ls -> bufio.takeFitting ls = ls.
Proof.
  intros ls Hfit. rewrite <- (app_nil_r ls) at 1.
  rewrite (takeFitting_app ls [] Hfit). simpl. apply app_nil_r.
Qed.

Lemma takeFitting_incl : forall ls l, In l (bufio.takeFitting ls) -> In l ls.
Proof.
  induction ls as [|l' ls IH]; simpl; intros l Hin; [assumption|].
  destruct (Z.of_nat (String.length l') <? bufio.MaxScanTokenSize);
    [|contradiction].
  destruct Hin as [->|Hin]; auto.
Qed.

(** When every line parses, the loop appends one record per line, in the
    order of the lines. *)
Lemma scanLoop_ok : forall lines programs,
  Forall (fun l => snd (parseStatusLine l) = None) lines ->
  scanLoop lines programs
  = ((programs ++ map (fun l => fst (parseStatusLine l)) lines)%list, None).
Proof.
  induction lines as [|line lines IH]; intros programs Hok; simpl.
  - now rewrite app_nil_r.
  - inversion Hok as [|? ? Hline Hrest]; subst.
    destruct (parseStatusLine line) as [program err]. simpl in Hline. subst err.
    rewrite (IH _ Hrest). simpl. now rewrite <- app_assoc.
Qed.

(** When some line does not parse, the loop ends at the first such line,
    with its error wrapped and no record. *)
Lemma scanLoop_fail : forall lines programs,
  Exists (fun l => snd (parseStatusLine l) <> None) lines ->
  exists bad err,
    In bad lines
    /\ snd (parseStatusLine bad) = Some err
    /\ scanLoop lines programs
       = ([], Some (wrapError ("failed to parse status line: " ++ Error err) err)).
Proof.
  induction lines as [|line lines IH]; intros programs Hbad.
  - inversion Hbad.
  - simpl. destruct (parseStatusLine line) as [program [err|]] eqn:Hline.
    + exists line, err. rewrite Hline. simpl. auto.
    + assert (Hrest : Exists (fun l => snd (parseStatusLine l) <> None) lines).
      { inversion Hbad as [? ? Hhere|]; subst; [|assumption].
        rewrite Hline in Hhere. now elim Hhere. }
      destruct (IH (programs ++ [program])%list Hrest) as (bad & err & Hin & Hp & Hloop).
      exists bad, err. simpl. auto.
Qed.

(** A line that parses has three fields at least: it is not empty. *)
Lemma parse_ok_nonempty : forall line,
  snd (parseStatusLine line) = None -> line <> "".
Proof. intros line Hok ->. discriminate Hok. Qed.

(** After a run that succeeded or exited with code 3 or 4, [Status] is
    the loop over the lines the scanner delivers. *)
Lemma Status_success :
  forall (E : Type) (H : CommandExecutor E) (c : Client E) (opts : StatusOptions)
         (output : string) (err : option error),
    Output (fst (Command (commandExecutor c) "supervisorctl"
                         (invocation (configFile c) ("status" :: Names opts))))
    = (output, err) ->
    tolerated err = true ->
    fst (Status c opts) = scanLoop (bufio.Tokens output) [].
Proof.
  intros E H c opts output err. rewrite Status_unfold.
  destruct (Command _ _ _) as [cmd ex]. cbn [fst]. intros -> Herr.
  destruct err as [[code msg|msg|msg err]|]; try discriminate Herr; [|reflexivity].
  cbn [tolerated] in Herr. now rewrite Herr.
Qed.

(** With no line too long for the scanner, the scanner delivers the lines
    of the output. *)
Lemma Tokens_fitting : forall output,
  Forall fits (bufio.rawLines output) -> bufio.Tokens output = textLines output.
Proof.
  intros output Hfit. unfold bufio.Tokens, textLines.
  now rewrite takeFitting_all.
Qed.

(** Where the scanner delivers every line: when the tool could be run (with
    exit code 0, 3 or 4), no line of its output is 65536 bytes long or longer
    and every line parses, [Status] returns one record per line, in the order
    of the lines, and no error; none of these lines is empty. *)
Lemma Status_records :
  forall (E : Type) (H : CommandExecutor E) (c : Client E) (opts : StatusOptions)
         (output : string) (err : option error),
    let cmd :=
      fst (Command (commandExecutor c) "supervisorctl"
                   (invocation (configFile c) ("status" :: Names opts))) in
    Output cmd = (output, err) ->
    tolerated err = true ->
    Forall fits (bufio.rawLines output) ->
    Forall (fun line => snd (parseStatusLine line) = None) (textLines output) ->
    fst (Status c opts)
    = (map (fun line => fst (parseStatusLine line)) (textLines output), None)
    /\ List.length (fst (fst (Status c opts))) = List.length (textLines output)
    /\ Forall (fun line => line <> "") (textLines output).
Proof.
  intros E H c opts output err cmd Hout Herr Hfit Hok.
  assert (Hstatus : fst (Status c opts)
                    = (map (fun line => fst (parseStatusLine line)) (textLines output),
                       None)).
  { rewrite (Status_success E H c opts output err Hout Herr).
    rewrite (Tokens_fitting output Hfit). now rewrite (scanLoop_ok _ [] Hok). }
  split; [exact Hstatus|]. split.
  - rewrite Hstatus. cbn [fst]. apply length_map.
  - revert Hok. apply Forall_impl. exact parse_ok_nonempty.
Qed.

(** The case "successful status all" of [TestStatus]. *)
Example test_status_successful_all :
  let output :=
    "program1 RUNNING pid 123, uptime 1:23:45" ++ newline
    ++ "program2 STOPPED not started" ++ newline
    ++ "program3 STARTING start in progress" in
  let c :=
    {| configFile := "";
       commandExecutor :=
         {| Calls := [];
            Return := fun _ _ => {| Run := None; Output := (output, None) |} |} |} in
  fst (Status c {| Names := [] |})
  = ([ {| Name := "program1"; Description := "pid 123, uptime 1:23:45";
          State := 20; StateName := "RUNNING"; PID := 123; Uptime := "1:23:45" |};
       {| Name := "program2"; Description := "not started";
          State := 0; StateName := "STOPPED"; PID := 0; Uptime := "" |};
       {| Name := "program3"; Description := "start in progress";
          State := 10; StateName := "STARTING"; PID := 0; Uptime := "" |} ], None).
Proof.
  intros output c.
  refine (eq_trans (proj1 (Status_records _ _ c {| Names := [] |} output None
                                          eq_refl eq_refl _ _)) _).
  - repeat constructor.
  - repeat constructor.
  - reflexivity.
Qed.

(** A blank line is a line, and it does not parse. *)
Example status_blank_line :
  let output :=
    "program1 STOPPED not started" ++ newline ++ newline
    ++ "program2 STOPPED not started" ++ newline in
  let c :=
    {| configFile := "";
       commandExecutor :=
         {| Calls := [];
            Return := fun _ _ => {| Run := None; Output := (output, None) |} |} |} in
  textLines output
  = ["program1 STOPPED not started"; ""; "program2 STOPPED not started"]
  /\ fst (Status c {| Names := [] |})
     = ([], Some (wrapError "failed to parse status line: invalid status line: "
                            (errorString "invalid status line: "))).
Proof. split; reflexivity. Qed.

(** C7.  One record per line, in order, is what the loop of [Status] builds
    ([Status_records]); the code breaks it at a line of 65536 bytes or more.
    The default [bufio.Scanner] stops there with [ErrTooLong], and [Status]
    never looks at [scanner.Err()] after its loop, unlike every other failure
    of [Status], which returns [nil] and the error.  Each of the three lines
    below parses, the second is 70017 bytes long, and [Status] returns the
    record of the first line only (one record, not three), with no error. *)
Theorem C7_long_line_drops_records :
  let output :=
    "program1 STOPPED not started" ++ newline
    ++ "program2 RUNNING " ++ Repeat "x" 70000 ++ newline
    ++ "program3 STOPPED not started" in
  let c :=
    {| configFile := "";
       commandExecutor :=
         {| Calls := [];
            Return := fun _ _ => {| Run := None; Output := (output, None) |} |} |} in
  map (fun line => Z.of_nat (String.length line)) (textLines output)
  = [28; 70017; 28]
  /\ Forall (fun line => snd (parseStatusLine line) = None) (textLines output)
  /\ fst (Status c {| Names := [] |})
     = ([ {| Name := "program1"; Description := "not started";
             State := 0; StateName := "STOPPED"; PID := 0; Uptime := "" |} ], None).
Proof.
  intros output c. split; [vm_compute; reflexivity|]. split.
  - apply Forall_forall. intros line Hin.
    assert (Hall : forallb (fun line => match snd (parseStatusLine line) with
                                        | None => true
                                        | Some _ => false
                                        end) (textLines output) = true)
      by (vm_compute; reflexivity).
    rewrite forallb_forall in Hall. specialize (Hall line Hin).
    destruct (snd (parseStatusLine line)); [discriminate Hall | reflexivity].
  - vm_compute. reflexivity.
Qed.

(** Where the scanner reaches a line that does not parse: when the tool
    could be run (with exit code 0, 3 or 4), a line of its output does not
    parse and neither that line nor a line before it is 65536 bytes long or
    longer, [Status] returns no record and an error, which wraps the error
    of a line that does not parse. *)
Lemma Status_parse_failure :
  forall (E : Type) (H : CommandExecutor E) (c : Client E) (opts : StatusOptions)
         (output : string) (err : option error) (earlier : list string)
         (bad : string) (later : list string),
    let cmd :=
      fst (Command (commandExecutor c) "supervisorctl"
                   (invocation (configFile c) ("status" :: Names opts))) in
    Output cmd = (output, err) ->
    tolerated err = true ->
    bufio.rawLines output = (earlier ++ bad :: later)%list ->
    Forall fits (earlier ++ [bad]) ->
    snd (parseStatusLine (bufio.dropCR bad)) <> None ->
    exists line cause,
      In line (textLines output)
      /\ snd (parseStatusLine line) = Some cause
      /\ fst (Status c opts)
         = ([], Some (wrapError ("failed to parse status line: " ++ Error cause)
                                cause)).
Proof.
  intros E H c opts output err earlier bad later cmd Hout Herr Hlines Hfit Hbad.
  rewrite (Status_success E H c opts output err Hout Herr).
  unfold bufio.Tokens, textLines. rewrite Hlines.
  replace (earlier ++ bad :: later)%list with ((earlier ++ [bad]) ++ later)%list
    by now rewrite <- app_assoc.
  rewrite (takeFitting_app _ later Hfit).
  destruct (scanLoop_fail
              (map bufio.dropCR ((earlier ++ [bad]) ++ bufio.takeFitting later)) [])
    as (line & cause & Hin & Hparse & Hloop).
  { apply Exists_exists. exists (bufio.dropCR bad). split; [|exact Hbad].
    apply in_map, in_or_app. left. apply in_or_app. right. now left. }
  exists line, cause. split; [|now split].
  apply in_map_iff in Hin. destruct Hin as (raw & <- & Hin).
  apply in_map. apply in_app_or in Hin. apply in_or_app.
  destruct Hin as [Hin|Hin]; [now left | right; now apply takeFitting_incl].
Qed.

(** A line of one field between two lines that parse. *)
Example status_invalid_line :
  let output :=
    "program1 STOPPED not started" ++ newline
    ++ "invalid" ++ newline
    ++ "program3 STOPPED not started" in
  let c :=
    {| configFile := "";
       commandExecutor :=
         {| Calls := [];
            Return := fun _ _ => {| Run := None; Output := (output, None) |} |} |} in
  exists line err,
    In line (textLines output)
    /\ snd (parseStatusLine line) = Some err
    /\ fst (Status c {| Names := [] |})
       = ([], Some (wrapError ("failed to parse status line: " ++ Error err) err)).
Proof.
  intros output c.
  apply (Status_parse_failure
           _ _ c {| Names := [] |} output None
           ["program1 STOPPED not started"] "invalid"
           ["program3 STOPPED not started"]).
  - reflexivity.
  - reflexivity.
  - reflexivity.
  - repeat constructor.
  - vm_compute. discriminate.
Qed.

(** C10.  A line that does not parse ends the loop of [Status] with an
    error and no record ([Status_parse_failure]); the code breaks it when
    the scanner stops before it reports that line.  The default
    [bufio.Scanner] stops at a line of 65536 bytes or more with [ErrTooLong],
    and [Status] never looks at [scanner.Err()] after its loop, unlike every
    other failure of [Status], which returns [nil] and the error.  The second
    line below does not parse (it is one field of 70000 bytes), and [Status]
    returns the record of the first line, a partial list, and no error. *)
Theorem C10_long_line_hides_error :
  let output := "program1 STOPPED not started" ++ newline ++ Repeat "x" 70000 in
  let c :=
    {| configFile := "";
       commandExecutor :=
         {| Calls := [];
            Return := fun _ _ => {| Run := None; Output := (output, None) |} |} |} in
  map (fun line => Z.of_nat (String.length line)) (textLines output) = [28; 70000]
  /\ Exists (fun line => snd (parseStatusLine line) <> None) (textLines output)
  /\ fst (Status c {| Names := [] |})
     = ([ {| Name := "program1"; Description := "not started";
             State := 0; StateName := "STOPPED"; PID := 0; Uptime := "" |} ], None).
Proof.
  intros output c. split; [vm_compute; reflexivity|]. split.
  - assert (Hsome : existsb (fun line => match snd (parseStatusLine line) with
                                         | None => false
                                         | Some _ => true
                                         end) (textLines output) = true)
      by (vm_compute; reflexivity).
    apply existsb_exists in Hsome. destruct Hsome as (line & Hin & Hline).
    apply Exists_exists. exists line. split; [exact Hin|].
    destruct (snd (parseStatusLine line)); [discriminate | discriminate Hline].
  - vm_compute. reflexivity.
Qed.

(** ** Cutting a string at a separator *)

Lemma length_take : forall n s,
  (n <= String.length s)%nat -> String.length (take n s) = n.
Proof.
  induction n as [|n IH]; intros s Hn; [reflexivity|].
  destruct s as [|c s]; simpl in *; [lia|]. rewrite IH; lia.
Qed.

Lemma length_drop : forall n s,
  String.length (drop n s) = (String.length s - n)%nat.
Proof.
  induction n as [|n IH]; intros s; simpl; [lia|].
  destruct s as [|c s]; simpl; [reflexivity | apply IH].
Qed.

Lemma take_append_add : forall a b n,
  take (String.length a + n) (a ++ b) = a ++ take n b.
Proof. induction a as [|c a IH]; intros; simpl; [reflexivity | now rewrite IH]. Qed.

Lemma HasPrefix_length : forall prefix s,
  strings.HasPrefix s prefix = true -> (String.length prefix <= String.length s)%nat.
Proof.
  induction prefix as [|p prefix IH]; intros s Hpre; simpl in *; [lia|].
  destruct s as [|c s]; [discriminate|].
  apply andb_true_iff in Hpre. destruct Hpre as [_ Hpre].
  apply IH in Hpre. simpl. lia.
Qed.

(** One step of [Index]. *)
Lemma Index_step : forall c s substr,
  strings.Index (String c s) substr
  = if strings.HasPrefix (String c s) substr then Some 0%nat
    else option_map S (strings.Index s substr).
Proof. reflexivity. Qed.

Lemma Index_empty : forall c substr, strings.Index "" (String c substr) = None.
Proof. reflexivity. Qed.

(** An instance found lies within the string. *)
Lemma Index_bound : forall s substr i,
  strings.Index s substr = Some i ->
  (i + String.length substr <= String.length s)%nat.
Proof.
  induction s as [|c s IH]; intros substr i Hi.
  - destruct substr; [injection Hi as <-; simpl; lia | discriminate].
  - rewrite Index_step in Hi.
    destruct (strings.HasPrefix (String c s) substr) eqn:Hpre.
    + injection Hi as <-. now apply HasPrefix_length in Hpre.
    + destruct (strings.Index s substr) as [j|] eqn:Hj; [|discriminate].
      injection Hi as <-. apply IH in Hj. simpl. lia.
Qed.

(** No instance of [substr] starts in a stretch where its first byte does
    not occur. *)
Lemma Index_skip : forall p s c substr,
  mem c p = false ->
  strings.Index (p ++ s) (String c substr)
  = option_map (Nat.add (String.length p)) (strings.Index s (String c substr)).
Proof.
  induction p as [|c' p IH]; intros s c substr Hmem.
  - simpl. now destruct (strings.Index s (String c substr)).
  - simpl in Hmem. apply orb_false_iff in Hmem. destruct Hmem as [Hc Hmem].
    change (String c' p ++ s) with (String c' (p ++ s)).
    rewrite Index_step. simpl strings.HasPrefix. rewrite Hc. simpl.
    rewrite (IH s c substr Hmem).
    now destruct (strings.Index s (String c substr)).
Qed.

Lemma Index_absent : forall s c substr,
  mem c s = false -> strings.Index s (String c substr) = None.
Proof.
  intros s c substr Hmem. rewrite <- (append_nil_r s).
  now rewrite (Index_skip s "" c substr Hmem).
Qed.

Lemma Contains_skip : forall p s c substr,
  mem c p = false ->
  strings.Contains (p ++ s) (String c substr) = strings.Contains s (String c substr).
Proof.
  intros p s c substr Hmem. unfold strings.Contains.
  rewrite (Index_skip p s c substr Hmem).
  now destruct (strings.Index s (String c substr)).
Qed.

Lemma before_skip : forall p s c substr,
  mem c p = false ->
  before (p ++ s) (String c substr) = p ++ before s (String c substr).
Proof.
  intros p s c substr Hmem. unfold before.
  rewrite (Index_skip p s c substr Hmem).
  destruct (strings.Index s (String c substr)) as [i|]; simpl; [|reflexivity].
  apply take_append_add.
Qed.

Lemma before_found : forall p s c substr,
  mem c p = false -> before (p ++ String c substr ++ s) (String c substr) = p.
Proof.
  intros p s c substr Hmem. rewrite (before_skip _ _ _ _ Hmem).
  unfold before. rewrite Index_prefix. simpl. apply append_nil_r.
Qed.

Lemma before_absent : forall s c substr,
  strings.Contains s (String c substr) = false -> before s (String c substr) = s.
Proof.
  intros s c substr Hnot. unfold before, strings.Contains in *.
  now destruct (strings.Index s (String c substr)).
Qed.

Lemma after_found : forall p s c substr,
  mem c p = false -> after (p ++ String c substr ++ s) (String c substr) = s.
Proof.
  intros p s c substr Hmem. unfold after.
  rewrite (Index_skip _ _ _ _ Hmem), Index_prefix. simpl option_map.
  cbv iota beta. rewrite Nat.add_0_r, drop_add, drop_append.
  apply (drop_append (String c substr) s).
Qed.

(** ** The first two elements of a [Split] *)

Section SplitFacts.

Variable c : ascii.
Variable substr : string.

Let sep := String c substr.

(** As long as an instance is left, [Count] counts it: the fuel of its loop
    is enough. *)
Lemma countLoop_found : forall fuel s i,
  strings.Index s sep = Some i ->
  (String.length s <= fuel)%nat ->
  exists fuel',
    fuel = S fuel'
    /\ (String.length (drop (i + String.length sep) s) <= fuel')%nat
    /\ strings.countLoop fuel s sep
       = S (strings.countLoop fuel' (drop (i + String.length sep) s) sep).
Proof.
  intros fuel s i Hi Hfuel.
  pose proof (Index_bound s sep i Hi) as Hbound.
  unfold sep in Hbound. simpl in Hbound.
  destruct fuel as [|fuel']; [lia|].
  exists fuel'. split; [reflexivity|]. split.
  - rewrite length_drop. unfold sep. simpl. lia.
  - simpl. now rewrite Hi.
Qed.

Lemma Split_cut : forall s i,
  strings.Index s sep = Some i ->
  strings.Split s sep
  = take i s
    :: strings.splitLoop
         (strings.countLoop (String.length s - 1)
                            (drop (i + String.length sep) s) sep)
         (drop (i + String.length sep) s) sep.
Proof.
  intros s i Hi. unfold strings.Split. fold sep. unfold sep at 1.
  unfold strings.Count. fold sep.
  destruct (countLoop_found (String.length s) s i Hi (le_n _))
    as (fuel' & Hfuel & _ & Hcount).
  rewrite Hcount. simpl. rewrite Hi. rewrite Hfuel.
  now replace (S fuel' - 1)%nat with fuel' by lia.
Qed.

Lemma Split_whole : forall s,
  strings.Index s sep = None -> strings.Split s sep = [s].
Proof.
  intros s Hi. unfold sep in *. unfold strings.Split, strings.Count.
  destruct (strings.countLoop _ _ _); simpl; [reflexivity | now rewrite Hi].
Qed.

(** [Split(s, sep)[0]] is [s] up to the first separator. *)
Lemma Split_first : forall s, nth 0 (strings.Split s sep) "" = before s sep.
Proof.
  intros s. unfold before.
  destruct (strings.Index s sep) as [i|] eqn:Hi.
  - now rewrite (Split_cut s i Hi).
  - now rewrite (Split_whole s Hi).
Qed.

(** [Split(s, sep)[1]] exists when [s] contains the separator, and is what
    lies between the first separator and the second. *)
Lemma Split_second : forall s,
  strings.Contains s sep = true ->
  (1 < List.length (strings.Split s sep))%nat
  /\ nth 1 (strings.Split s sep) "" = before (after s sep) sep.
Proof.
  intros s Hin. unfold strings.Contains in Hin. unfold after, before.
  destruct (strings.Index s sep) as [i|] eqn:Hi; [clear Hin | discriminate].
  rewrite (Split_cut s i Hi).
  pose proof (Index_bound s sep i Hi) as Hbound.
  set (rest := drop (i + String.length sep) s) in *.
  destruct (strings.Index rest sep) as [j|] eqn:Hj.
  - destruct (countLoop_found (String.length s - 1) rest j Hj)
      as (fuel' & Hfuel & _ & Hcount).
    { subst rest. rewrite length_drop. unfold sep in *. simpl in *. lia. }
    rewrite Hcount. simpl. rewrite Hj. simpl. split; [lia | reflexivity].
  - destruct (strings.countLoop _ rest sep); simpl; [|rewrite Hj]; simpl;
      (split; [lia | reflexivity]).
Qed.

End SplitFacts.

(** ** [strconv.Atoi] *)

(** What [Atoi] returns with an error: 0 with a syntax error, the nearest
    bound of [int] with a range error. *)
Lemma ParseInt_error_value : forall s v e,
  strconv.ParseInt s 0 = (v, Some e) ->
  match e with
  | strconv.ErrSyntax => v = 0
  | strconv.ErrRange => v = maxInt \/ v = minInt
  end.
Proof.
  intros s v e. unfold strconv.ParseInt.
  destruct s as [|c s]; [now intros [= <- <-]|].
  destruct (strconv.ParseUint _ 0) as [un [[|]|]];
    [now intros [= <- <-]| |];
    change (if 0 =? 0 then strconv.intSize else 0) with 64;
    destruct (negb (Ascii.eqb c "-") && (2 ^ (64 - 1) <=? un));
    try (intros [= <- <-]; left; reflexivity);
    destruct (Ascii.eqb c "-" && (2 ^ (64 - 1) <? un));
    try (intros [= <- <-]; right; reflexivity);
    discriminate.
Qed.

Lemma Atoi_error_value : forall s v e,
  strconv.Atoi s = (v, Some e) ->
  match e with
  | strconv.ErrSyntax => v = 0
  | strconv.ErrRange => v = maxInt \/ v = minInt
  end.
Proof.
  intros s v e. unfold strconv.Atoi.
  destruct ((0 <? Z.of_nat (String.length s)) && (Z.of_nat (String.length s) <? 19));
    [|apply ParseInt_error_value].
  destruct s as [|c s]; [now intros [= <- <-]|].
  destruct (_ && _); [now intros [= <- <-]|].
  destruct (strconv.atoiLoop _ 0); [discriminate | now intros [= <- <-]].
Qed.

(** Digits. *)
Lemma isDigit_value : forall c,
  isDigit c = true -> 0 <= byteZ c - 0x30 <= 9.
Proof.
  intros c Hc. unfold isDigit in Hc. apply andb_true_iff in Hc.
  destruct Hc as [Hlo Hhi]. apply Z.leb_le in Hlo, Hhi. lia.
Qed.

Lemma numeralLoop_ge : forall s n,
  allb isDigit s = true -> 0 <= n -> n <= numeralLoop s n.
Proof.
  induction s as [|c s IH]; intros n Hs Hn; cbn [allb numeralLoop] in *; [lia|].
  apply andb_true_iff in Hs. destruct Hs as [Hc Hs].
  apply isDigit_value in Hc. specialize (IH (10 * n + (byteZ c - 0x30)) Hs). lia.
Qed.

(** The fast path reads a numeral. *)
Lemma atoiLoop_numeral : forall s n,
  allb isDigit s = true -> strconv.atoiLoop s n = Some (numeralLoop s n).
Proof.
  induction s as [|c s IH]; intros n Hs;
    cbn [allb numeralLoop strconv.atoiLoop] in *; [reflexivity|].
  apply andb_true_iff in Hs. destruct Hs as [Hc Hs].
  apply isDigit_value in Hc. cbv zeta.
  rewrite Z.mod_small by lia.
  destruct (Z.ltb_spec 9 (byteZ c - 0x30)); [lia|].
  rewrite (IH _ Hs). f_equal. f_equal. lia.
Qed.

(** So does the loop of [ParseUint], when the number fits 64 bits. *)
Lemma parseUintLoop_numeral : forall s n,
  allb isDigit s = true -> 0 <= n -> numeralLoop s n <= strconv.maxUint64 ->
  strconv.parseUintLoop 64 s n = (numeralLoop s n, None).
Proof.
  induction s as [|c s IH]; intros n Hs Hn Hmax;
    cbn [allb numeralLoop strconv.parseUintLoop] in *; [reflexivity|].
  apply andb_true_iff in Hs. destruct Hs as [Hc Hs].
  pose proof (isDigit_value c Hc) as Hd.
  pose proof (numeralLoop_ge s (10 * n + (byteZ c - 0x30)) Hs ltac:(lia)) as Hge.
  unfold isDigit in Hc. cbv zeta. rewrite Hc.
  unfold strconv.maxUint64 in *.
  change (2 ^ 64 - 1) with 18446744073709551615 in *.
  change (18446744073709551615 / 10 + 1) with 1844674407370955162.
  change (2 ^ 64) with 18446744073709551616.
  destruct (Z.leb_spec 1844674407370955162 n); [lia|].
  rewrite (Z.mod_small (n * 10)) by lia.
  rewrite (Z.mod_small (n * 10 + (byteZ c - 0x30))) by lia.
  destruct (Z.ltb_spec (n * 10 + (byteZ c - 0x30)) (n * 10)); [lia|].
  destruct (Z.ltb_spec 18446744073709551615 (n * 10 + (byteZ c - 0x30))); [lia|].
  cbn [orb]. replace (n * 10 + (byteZ c - 0x30)) with (10 * n + (byteZ c - 0x30)) by lia.
  apply IH; [assumption | lia | assumption].
Qed.

Lemma digit_not_sign : forall c, isDigit c = true -> isSign c = false.
Proof.
  intros c Hc. unfold isSign.
  destruct (Ascii.eqb_spec c "-"%char) as [->|]; [discriminate Hc|].
  destruct (Ascii.eqb_spec c "+"%char) as [->|]; [discriminate Hc | reflexivity].
Qed.

Lemma isNumeral_inv : forall s,
  isNumeral s = true -> s <> "" /\ allb isDigit s = true.
Proof.
  intros s Hs. unfold isNumeral in Hs. apply andb_true_iff in Hs.
  destruct Hs as [Hne Hall]. split; [|exact Hall]. intros ->. discriminate Hne.
Qed.

(** [ParseInt] of a numeral after an optional sign. *)
Lemma ParseInt_integer : forall c s digits,
  digits = (if isSign c then s else String c s) ->
  isNumeral digits = true ->
  - 2 ^ 63 <= (if Ascii.eqb c "-" then - numeral digits else numeral digits) < 2 ^ 63 ->
  strconv.ParseInt (String c s) 0
  = ((if Ascii.eqb c "-" then - numeral digits else numeral digits), None).
Proof.
  intros c s digits Hdigits Hnum Hrange.
  destruct (isNumeral_inv digits Hnum) as [Hne Hall].
  pose proof (numeralLoop_ge digits 0 Hall (Z.le_refl 0)) as Hge.
  fold (numeral digits) in Hge.
  unfold strconv.ParseInt.
  replace (if Ascii.eqb c "+" || Ascii.eqb c "-" then s else String c s) with digits
    by (rewrite Hdigits; unfold isSign; now rewrite orb_comm).
  unfold strconv.ParseUint.
  change (if 0 =? 0 then strconv.intSize else 0) with 64.
  destruct digits as [|d digits']; [contradiction|].
  rewrite (parseUintLoop_numeral (String d digits') 0 Hall (Z.le_refl 0)).
  2:{ unfold strconv.maxUint64. fold (numeral (String d digits')).
      destruct (Ascii.eqb c "-"); lia. }
  fold (numeral (String d digits')).
  change (2 ^ (64 - 1)) with (2 ^ 63).
  destruct (Ascii.eqb c "-"); cbn [negb andb].
  - destruct (Z.ltb_spec (2 ^ 63) (numeral (String d digits'))); [lia | reflexivity].
  - destruct (Z.leb_spec (2 ^ 63) (numeral (String d digits'))); [lia | reflexivity].
Qed.

(** [Atoi] of an optionally signed numeral that fits an [int] is the
    integer it denotes. *)
Lemma Atoi_integer : forall s,
  isInteger s = true -> minInt <= integer s <= maxInt ->
  strconv.Atoi s = (integer s, None).
Proof.
  intros s Hs Hrange. destruct s as [|c s]; [discriminate|].
  unfold isInteger in Hs. unfold integer in *.
  set (digits := if isSign c then s else String c s) in *.
  assert (Hvalue : (if Ascii.eqb c "-" then - numeral s
                    else if Ascii.eqb c "+" then numeral s else numeral (String c s))
                   = (if Ascii.eqb c "-" then - numeral digits else numeral digits)).
  { subst digits. unfold isSign.
    destruct (Ascii.eqb c "-"); [reflexivity|]. now destruct (Ascii.eqb c "+"). }
  rewrite Hvalue in *.
  assert (Hnum : isNumeral digits = true)
    by (subst digits; now destruct (isSign c)).
  clear Hs. rename Hnum into Hs.
  destruct (isNumeral_inv digits Hs) as [Hne Hall].
  unfold minInt, maxInt, strconv.intSize in Hrange.
  change (64 - 1) with 63 in Hrange.
  unfold strconv.Atoi.
  destruct ((0 <? Z.of_nat (String.length (String c s)))
            && (Z.of_nat (String.length (String c s)) <? 19));
    [|apply (ParseInt_integer c s digits eq_refl Hs); lia].
  fold (isSign c). fold digits.
  replace (isSign c && (String.length digits <? 1)%nat) with false.
  2:{ destruct digits; [contradiction|]. now rewrite andb_false_r. }
  now rewrite (atoiLoop_numeral digits 0 Hall).
Qed.

(** ** Decoding UTF-8 *)

Lemma byteZ_range : forall c, 0 <= byteZ c < 256.
Proof.
  intros c. unfold byteZ. pose proof (N_ascii_bounded c) as Hc. lia.
Qed.

(** A leading byte announces two to four bytes, the second in a range of
    continuation bytes. *)
Lemma first_lead : forall b sz lo hi,
  utf8.first b = utf8.lead sz lo hi ->
  (sz = 2 \/ sz = 3 \/ sz = 4)%nat /\ utf8.locb <= lo /\ hi <= utf8.hicb.
Proof.
  intros b sz lo hi. unfold utf8.first, utf8.locb, utf8.hicb.
  repeat case_test;
    intros Hf; try discriminate Hf; injection Hf as <- <- <-; lia.
Qed.

Lemma first_ascii : forall b, b < utf8.RuneSelf -> utf8.first b = utf8.as_.
Proof.
  intros b Hb. unfold utf8.first, utf8.RuneSelf in *.
  destruct (Z.ltb_spec b 0x80); [reflexivity | lia].
Qed.

(** A byte starts a rune when it is not a continuation byte. *)
Lemma RuneStart_isCont : forall c,
  utf8.RuneStart (byteZ c) = negb (utf8.isCont (byteZ c)).
Proof. intros [[] [] [] [] [] [] [] []]; reflexivity. Qed.

Lemma first_cont : forall b, utf8.isCont b = true -> utf8.first b = utf8.xx.
Proof.
  intros b Hb. unfold utf8.isCont, utf8.locb, utf8.hicb in Hb.
  apply andb_true_iff in Hb. destruct Hb as [Hlo Hhi].
  apply Z.leb_le in Hlo, Hhi. unfold utf8.first.
  destruct (Z.ltb_spec b 0x80); [lia|].
  destruct (Z.ltb_spec b 0xC2); [reflexivity | lia].
Qed.

(** The width of a rune of a non-empty string is at least one and at
    most four, and the string has that many bytes. *)
Lemma decode_size : forall c s,
  (1 <= snd (utf8.DecodeRuneInString (String c s)) <= 4)%nat
  /\ (snd (utf8.DecodeRuneInString (String c s)) <= String.length (String c s))%nat.
Proof.
  intros c s. unfold utf8.DecodeRuneInString.
  destruct (utf8.first (byteZ c)) as [| |sz lo hi];
    repeat case_test; cbn [snd String.length]; lia.
Qed.

Lemma decode_ascii : forall c s,
  byteZ c < utf8.RuneSelf ->
  utf8.DecodeRuneInString (String c s) = (byteZ c, 1%nat).
Proof.
  intros c s Hc. unfold utf8.DecodeRuneInString. now rewrite (first_ascii _ Hc).
Qed.

Lemma decode_single : forall c,
  snd (utf8.DecodeRuneInString (String c "")) = 1%nat.
Proof.
  intros c. unfold utf8.DecodeRuneInString.
  destruct (utf8.first (byteZ c)) as [| |sz lo hi] eqn:Hf; try reflexivity.
  destruct (first_lead _ _ _ _ Hf) as ([-> | [-> | ->]] & _); reflexivity.
Qed.

Lemma decode_cont : forall c s,
  utf8.isCont (byteZ c) = true ->
  utf8.DecodeRuneInString (String c s) = (utf8.RuneError, 1%nat).
Proof.
  intros c s Hc. unfold utf8.DecodeRuneInString. now rewrite (first_cont _ Hc).
Qed.

(** A byte that starts a rune is outside every range of second bytes and
    is no continuation byte. *)
Lemma start_rejected : forall cp lo hi,
  utf8.RuneStart (byteZ cp) = true ->
  utf8.locb <= lo -> hi <= utf8.hicb ->
  (byteZ cp <? lo) || (hi <? byteZ cp) = true
  /\ negb (utf8.isCont (byteZ cp)) = true.
Proof.
  intros cp lo hi Hstart Hlo Hhi. rewrite RuneStart_isCont in Hstart.
  split; [|exact Hstart]. apply negb_true_iff in Hstart.
  unfold utf8.isCont in Hstart. apply andb_false_iff in Hstart.
  apply orb_true_iff.
  destruct Hstart as [H|H]; [left | right]; apply Z.leb_gt in H; apply Z.ltb_lt; lia.
Qed.

(** Decoding looks no further than the next byte that starts a rune. *)
Lemma decode_app_start : forall a cp b,
  a <> "" -> utf8.RuneStart (byteZ cp) = true ->
  utf8.DecodeRuneInString (a ++ String cp b) = utf8.DecodeRuneInString a.
Proof.
  intros a cp b Ha Hstart. destruct a as [|c0 a]; [contradiction|]. clear Ha.
  unfold utf8.DecodeRuneInString. cbn [append].
  destruct (utf8.first (byteZ c0)) as [| |sz lo hi] eqn:Hf; try reflexivity.
  destruct (first_lead _ _ _ _ Hf) as (Hsz & Hlo & Hhi).
  destruct (start_rejected cp lo hi Hstart Hlo Hhi) as [Hrange Hcont].
  destruct a as [|c1 [|c2 [|c3 a]]]; cbn [append String.length];
    destruct Hsz as [-> | [-> | ->]]; cbn [Nat.ltb Nat.leb];
    rewrite ?Hrange, ?Hcont; repeat case_test; reflexivity.
Qed.

(** ** The runes of a string *)

Lemma take_drop : forall n s, take n s ++ drop n s = s.
Proof.
  induction n as [|n IH]; intros s; [reflexivity|].
  destruct s as [|c s]; [reflexivity|]. simpl. now rewrite IH.
Qed.

Lemma take_app_le : forall n a b,
  (n <= String.length a)%nat -> take n (a ++ b) = take n a.
Proof.
  induction n as [|n IH]; intros a b Hn; [reflexivity|].
  destruct a as [|c a]; simpl in *; [lia|]. rewrite IH; [reflexivity | lia].
Qed.

Lemma drop_app_le : forall n a b,
  (n <= String.length a)%nat -> drop n (a ++ b) = drop n a ++ b.
Proof.
  induction n as [|n IH]; intros a b Hn; [reflexivity|].
  destruct a as [|c a]; simpl in *; [lia|]. apply IH. lia.
Qed.

(** The loop over the runes does not depend on the fuel, once there is one
    unit of it for each byte. *)
Lemma runesLoop_fuel : forall n m s,
  (String.length s <= n)%nat -> (String.length s <= m)%nat ->
  strings.runesLoop n s = strings.runesLoop m s.
Proof.
  induction n as [|n IH]; intros m s Hn Hm.
  - destruct s; [now destruct m | simpl in Hn; lia].
  - destruct s as [|c s]; [now destruct m|].
    destruct m as [|m]; [simpl in Hm; lia|].
    cbn [strings.runesLoop].
    pose proof (decode_size c s) as [[Hone _] _].
    destruct (utf8.DecodeRuneInString (String c s)) as [r size].
    cbn [snd] in Hone. f_equal.
    apply IH; rewrite length_drop; cbn [String.length] in *; lia.
Qed.

Lemma runes_cons : forall c s,
  strings.runes (String c s)
  = (fst (utf8.DecodeRuneInString (String c s)),
     take (snd (utf8.DecodeRuneInString (String c s))) (String c s))
    :: strings.runes (drop (snd (utf8.DecodeRuneInString (String c s))) (String c s)).
Proof.
  intros c s. unfold strings.runes at 1. cbn [String.length strings.runesLoop].
  pose proof (decode_size c s) as [[Hone _] _].
  destruct (utf8.DecodeRuneInString (String c s)) as [r size].
  cbn [fst snd] in *. f_equal. unfold strings.runes.
  apply runesLoop_fuel; rewrite length_drop; cbn [String.length]; lia.
Qed.

Lemma runes_ascii_cons : forall c s,
  byteZ c < utf8.RuneSelf ->
  strings.runes (String c s) = (byteZ c, String c "") :: strings.runes s.
Proof. intros c s Hc. now rewrite runes_cons, (decode_ascii c s Hc). Qed.

(** The runes before a byte that starts a rune are decoded as if the
    string ended there. *)
Lemma runes_app_start : forall a cp b,
  utf8.RuneStart (byteZ cp) = true ->
  strings.runes (a ++ String cp b)
  = (strings.runes a ++ strings.runes (String cp b))%list.
Proof.
  intros a cp b Hstart.
  remember (String.length a) as n eqn:Hn.
  revert a Hn. induction n as [n IH] using lt_wf_ind. intros a Hn.
  destruct a as [|c0 a]; [reflexivity|].
  change (String c0 a ++ String cp b) with (String c0 (a ++ String cp b)).
  rewrite (runes_cons c0 (a ++ String cp b)), (runes_cons c0 a).
  change (String c0 (a ++ String cp b)) with (String c0 a ++ String cp b).
  rewrite (decode_app_start (String c0 a) cp b ltac:(discriminate) Hstart).
  pose proof (decode_size c0 a) as [[Hone _] Hlen].
  set (size := snd (utf8.DecodeRuneInString (String c0 a))) in *.
  rewrite (take_app_le size _ _ Hlen), (drop_app_le size _ _ Hlen).
  cbn [app]. f_equal.
  apply (IH (String.length (drop size (String c0 a)))); [|reflexivity].
  rewrite length_drop. subst n. cbn [String.length] in *. lia.
Qed.

(** The runes of a string cover it. *)
Lemma bytesOf_runes : forall s, bytesOf (strings.runes s) = s.
Proof.
  intros s. remember (String.length s) as n eqn:Hn.
  revert s Hn. induction n as [n IH] using lt_wf_ind. intros s Hn.
  destruct s as [|c s]; [reflexivity|].
  rewrite runes_cons. cbn [bytesOf].
  pose proof (decode_size c s) as [[Hone _] Hlen].
  set (size := snd (utf8.DecodeRuneInString (String c s))) in *.
  rewrite (IH (String.length (drop size (String c s)))); [apply take_drop | | reflexivity].
  rewrite length_drop. subst n. cbn [String.length] in *. lia.
Qed.

Lemma bytesOf_app : forall rs rs',
  bytesOf (rs ++ rs') = bytesOf rs ++ bytesOf rs'.
Proof.
  induction rs as [|[r bytes] rs IH]; intros rs'; simpl; [reflexivity|].
  now rewrite IH, append_assoc.
Qed.

(** ** Words and [Fields] *)

(** On ASCII, white space is the table [asciiSpace]. *)
Lemma IsSpace_ascii : forall c,
  byteZ c < utf8.RuneSelf -> unicode.IsSpace (byteZ c) = strings.asciiSpace c.
Proof.
  intros [[] [] [] [] [] [] [] []] Hc; try reflexivity;
    vm_compute in Hc; discriminate Hc.
Qed.

Lemma ascii_RuneStart : forall c,
  byteZ c < utf8.RuneSelf -> utf8.RuneStart (byteZ c) = true.
Proof.
  intros [[] [] [] [] [] [] [] []] Hc; try reflexivity;
    vm_compute in Hc; discriminate Hc.
Qed.

(** The two paths of [Fields] agree: [Fields] is [FieldsFunc] with
    [unicode.IsSpace]. *)
Lemma fieldsLoop_runes : forall s,
  strings.hasNonASCII s = false ->
  strings.fieldsFuncLoop unicode.IsSpace (strings.runes s) = strings.fieldsLoop s.
Proof.
  induction s as [|c s IH]; intros Hs; [reflexivity|].
  cbn [strings.hasNonASCII] in Hs. apply orb_false_iff in Hs.
  destruct Hs as [Hc Hs]. apply Z.leb_gt in Hc.
  rewrite (runes_ascii_cons c s Hc). cbn [strings.fieldsFuncLoop strings.fieldsLoop].
  now rewrite (IH Hs), (IsSpace_ascii c Hc).
Qed.

Lemma Fields_FieldsFunc : forall s,
  strings.Fields s = strings.FieldsFunc s unicode.IsSpace.
Proof.
  intros s. unfold strings.Fields, strings.FieldsFunc.
  destruct (strings.hasNonASCII s) eqn:Hs; [reflexivity|].
  now rewrite (fieldsLoop_runes s Hs).
Qed.

Lemma flush_word : forall w fields,
  w <> "" -> strings.flush w fields = w :: fields.
Proof. intros [|c w] fields Hw; [contradiction | reflexivity]. Qed.

Lemma isWord_inv : forall w, isWord w = true -> w <> "" /\ noSpace w = true.
Proof.
  intros w Hw. unfold isWord in Hw. apply andb_true_iff in Hw.
  destruct Hw as [Hne Hall]. split; [|exact Hall].
  intros ->. discriminate Hne.
Qed.

(** Runes that are not white space go to the field that is open. *)
Lemma fieldsFuncLoop_word : forall f rs rs',
  forallb (fun rb => negb (f (fst rb))) rs = true ->
  strings.fieldsFuncLoop f (rs ++ rs')
  = (bytesOf rs ++ fst (strings.fieldsFuncLoop f rs'),
     snd (strings.fieldsFuncLoop f rs')).
Proof.
  induction rs as [|[r bytes] rs IH]; intros rs' Hrs; cbn [app bytesOf].
  - now destruct (strings.fieldsFuncLoop f rs').
  - cbn [forallb fst] in Hrs. apply andb_true_iff in Hrs. destruct Hrs as [Hr Hrs].
    apply negb_true_iff in Hr. cbn [strings.fieldsFuncLoop].
    rewrite (IH rs' Hrs), Hr. now rewrite append_assoc.
Qed.

Lemma FieldsFunc_space : forall t,
  strings.FieldsFunc (String " " t) unicode.IsSpace
  = strings.FieldsFunc t unicode.IsSpace.
Proof.
  intros t. unfold strings.FieldsFunc.
  rewrite (runes_ascii_cons " " t eq_refl). cbn [strings.fieldsFuncLoop].
  destruct (strings.fieldsFuncLoop unicode.IsSpace (strings.runes t)) as [field fields].
  change (unicode.IsSpace (byteZ " ")) with true. cbv iota.
  now destruct field.
Qed.

Lemma FieldsFunc_word : forall w,
  isWord w = true -> strings.FieldsFunc w unicode.IsSpace = [w].
Proof.
  intros w Hw. destruct (isWord_inv w Hw) as [Hne Hns].
  unfold strings.FieldsFunc.
  rewrite <- (app_nil_r (strings.runes w)).
  rewrite (fieldsFuncLoop_word unicode.IsSpace _ [] Hns).
  cbn [strings.fieldsFuncLoop fst snd].
  rewrite bytesOf_runes, append_nil_r. now apply flush_word.
Qed.

Lemma FieldsFunc_word_space : forall w t,
  isWord w = true ->
  strings.FieldsFunc (w ++ String " " t) unicode.IsSpace
  = w :: strings.FieldsFunc t unicode.IsSpace.
Proof.
  intros w t Hw. destruct (isWord_inv w Hw) as [Hne Hns].
  rewrite <- (FieldsFunc_space t). unfold strings.FieldsFunc.
  rewrite (runes_app_start w " " t eq_refl).
  rewrite (fieldsFuncLoop_word unicode.IsSpace _ _ Hns), bytesOf_runes.
  rewrite (runes_ascii_cons " " t eq_refl). cbn [strings.fieldsFuncLoop].
  destruct (strings.fieldsFuncLoop unicode.IsSpace (strings.runes t)) as [field fields].
  change (unicode.IsSpace (byteZ " ")) with true. cbv iota. cbn [fst snd].
  rewrite append_nil_r, (flush_word w _ Hne). reflexivity.
Qed.

Lemma Join_cons : forall w w' ws sep,
  strings.Join (w :: w' :: ws) sep = w ++ sep ++ strings.Join (w' :: ws) sep.
Proof. reflexivity. Qed.

(** The fields of words joined by single spaces are the words, also when a
    space and more text follow. *)
Lemma Fields_words_space : forall ws t,
  Forall (fun w => isWord w = true) ws ->
  strings.FieldsFunc (strings.Join ws " " ++ String " " t) unicode.IsSpace
  = (ws ++ strings.FieldsFunc t unicode.IsSpace)%list.
Proof.
  intros ws t. induction 1 as [|w ws Hw Hws IH].
  - apply FieldsFunc_space.
  - destruct ws as [|w2 ws].
    + cbn [strings.Join app]. now apply FieldsFunc_word_space.
    + rewrite Join_cons, !append_assoc.
      change (" " ++ strings.Join (w2 :: ws) " " ++ String " " t)
        with (String " " (strings.Join (w2 :: ws) " " ++ String " " t)).
      rewrite (FieldsFunc_word_space w _ Hw), IH. reflexivity.
Qed.

Lemma Fields_words_only : forall ws,
  Forall (fun w => isWord w = true) ws ->
  strings.FieldsFunc (strings.Join ws " ") unicode.IsSpace = ws.
Proof.
  induction 1 as [|w ws Hw Hws IH]; [reflexivity|].
  destruct ws as [|w2 ws]; [now apply FieldsFunc_word|].
  rewrite Join_cons.
  change (" " ++ strings.Join (w2 :: ws) " ")
    with (String " " (strings.Join (w2 :: ws) " ")).
  now rewrite (FieldsFunc_word_space w _ Hw), IH.
Qed.

(** [Fields] of words joined by single spaces, followed by a space and
    further words joined by single spaces (or by a space and nothing). *)
Lemma Fields_words : forall ws ts,
  Forall (fun w => isWord w = true) ws ->
  Forall (fun w => isWord w = true) ts ->
  strings.Fields (strings.Join ws " " ++ " " ++ strings.Join ts " ")
  = (ws ++ ts)%list.
Proof.
  intros ws ts Hws Hts. rewrite Fields_FieldsFunc.
  change (" " ++ strings.Join ts " ") with (String " " (strings.Join ts " ")).
  now rewrite (Fields_words_space ws _ Hws), (Fields_words_only ts Hts).
Qed.

(** ** The last rune and [TrimSpace] *)

Lemma rev_append_spec : forall s acc, rev_append s acc = reverse s ++ acc.
Proof.
  unfold reverse. induction s as [|c s IH]; intros acc; simpl; [reflexivity|].
  rewrite (IH (String c acc)), (IH (String c "")).
  now rewrite append_assoc.
Qed.

Lemma reverse_append : forall s t, reverse (s ++ t) = reverse t ++ reverse s.
Proof.
  induction s as [|c s IH]; intros t.
  - simpl. now rewrite append_nil_r.
  - unfold reverse. simpl. rewrite !(rev_append_spec _ (String c "")).
    now rewrite IH, append_assoc.
Qed.

Lemma reverse_involutive : forall s, reverse (reverse s) = s.
Proof.
  induction s as [|c s IH]; [reflexivity|].
  unfold reverse at 2. simpl. rewrite rev_append_spec, reverse_append.
  now rewrite IH.
Qed.

Lemma get_app : forall a c b, String.get (String.length a) (a ++ String c b) = Some c.
Proof. induction a as [|c' a IH]; intros c b; [reflexivity | apply IH]. Qed.

Lemma byteAt_app : forall a c b,
  utf8.byteAt (a ++ String c b) (Z.of_nat (String.length a)) = byteZ c.
Proof. intros a c b. unfold utf8.byteAt. now rewrite Nat2Z.id, get_app. Qed.

Lemma init_last : forall s, s <> "" -> exists a c, s = a ++ String c "".
Proof.
  induction s as [|c s IH]; intros Hs; [contradiction|].
  destruct s as [|c' s].
  - now exists "", c.
  - destruct IH as (a & c'' & Ha); [discriminate|].
    exists (String c a), c''. simpl. now rewrite Ha.
Qed.

Lemma take_all : forall s, take (String.length s) s = s.
Proof. induction s as [|c s IH]; simpl; [reflexivity | now rewrite IH]. Qed.

Lemma lastRuneStart_le : forall fuel s start lim,
  utf8.lastRuneStart fuel s start lim <= start.
Proof.
  induction fuel as [|fuel IH]; intros s start lim; simpl; [lia|].
  destruct (start <? lim); [lia|].
  destruct (utf8.RuneStart _); [lia|].
  specialize (IH s (start - 1) lim). lia.
Qed.

(** What [DecodeLastRuneInString] returns: its width is that of the rune
    decoded where the last [width] bytes begin, and its rune is that rune,
    decoded at a byte that starts a rune, or [RuneError]. *)
Lemma DecodeLast_spec : forall s,
  s <> "" ->
  exists a cp b,
    s = a ++ String cp b
    /\ snd (utf8.DecodeLastRuneInString s) = String.length (String cp b)
    /\ snd (utf8.DecodeRuneInString (String cp b)) = String.length (String cp b)
    /\ (fst (utf8.DecodeLastRuneInString s) = utf8.RuneError
        \/ (fst (utf8.DecodeLastRuneInString s)
            = fst (utf8.DecodeRuneInString (String cp b))
            /\ utf8.RuneStart (byteZ cp) = true)).
Proof.
  intros s Hs. destruct (init_last s Hs) as (a0 & c & Hlast).
  assert (Hend : Z.of_nat (String.length s) = Z.of_nat (String.length a0) + 1).
  { rewrite Hlast, length_append. simpl. lia. }
  unfold utf8.DecodeLastRuneInString.
  destruct (Z.eqb_spec (Z.of_nat (String.length s)) 0) as [H0|_]; [lia|].
  replace (Z.of_nat (String.length s) - 1) with (Z.of_nat (String.length a0)) by lia.
  assert (Hbyte : utf8.byteAt s (Z.of_nat (String.length a0)) = byteZ c)
    by (rewrite Hlast; apply byteAt_app).
  rewrite Hbyte.
  destruct (Z.ltb_spec (byteZ c) utf8.RuneSelf) as [Hascii|Hhigh].
  { exists a0, c, "". cbn [fst snd String.length].
    rewrite (decode_ascii c "" Hascii). cbn [fst snd].
    repeat split; try assumption. right. split; [reflexivity|].
    now apply ascii_RuneStart. }
  set (lim := Z.max 0 (Z.of_nat (String.length s) - Z.of_nat utf8.UTFMax)).
  pose proof (lastRuneStart_le utf8.UTFMax s (Z.of_nat (String.length s) - 2) lim) as Hle.
  set (st := utf8.lastRuneStart utf8.UTFMax s (Z.of_nat (String.length s) - 2) lim) in *.
  set (start := if st <? 0 then 0 else st).
  assert (Hstart : 0 <= start < Z.of_nat (String.length s)).
  { subst start. destruct (Z.ltb_spec st 0); lia. }
  destruct (utf8.DecodeRuneInString (drop (Z.to_nat start) s)) as [r size] eqn:Hdec.
  destruct (Z.eqb_spec (start + Z.of_nat size) (Z.of_nat (String.length s))) as [Hmatch|_].
  - assert (Hdrop : String.length (drop (Z.to_nat start) s) = size).
    { rewrite length_drop. lia. }
    destruct (drop (Z.to_nat start) s) as [|cp b] eqn:Hrest.
    { simpl in Hdrop. subst size. lia. }
    exists (take (Z.to_nat start) s), cp, b. cbn [fst snd].
    rewrite Hdec. cbn [fst snd].
    split; [now rewrite <- Hrest, take_drop|].
    split; [now rewrite Hdrop|]. split; [now rewrite Hdrop|].
    destruct (utf8.RuneStart (byteZ cp)) eqn:Hcp; [now right|]. left.
    rewrite RuneStart_isCont in Hcp. apply negb_false_iff in Hcp.
    rewrite (decode_cont cp b Hcp) in Hdec. now injection Hdec as <- _.
  - exists a0, c, "". cbn [fst snd String.length].
    rewrite decode_single. repeat split; try assumption. now left.
Qed.

Lemma DecodeLast_ascii : forall a c,
  byteZ c < utf8.RuneSelf ->
  utf8.DecodeLastRuneInString (a ++ String c "") = (byteZ c, 1%nat).
Proof.
  intros a c Hc. unfold utf8.DecodeLastRuneInString.
  rewrite length_append. cbn [String.length].
  destruct (Z.eqb_spec (Z.of_nat (String.length a + 1)) 0) as [H0|_]; [lia|].
  replace (Z.of_nat (String.length a + 1) - 1) with (Z.of_nat (String.length a)) by lia.
  rewrite byteAt_app.
  destruct (Z.ltb_spec (byteZ c) utf8.RuneSelf); [reflexivity | lia].
Qed.

(** [TrimRightFunc] keeps a string whose last rune is not white space. *)
Lemma TrimRightFunc_keep : forall s,
  s <> "" ->
  unicode.IsSpace (fst (utf8.DecodeLastRuneInString s)) = false ->
  strings.TrimRightFunc s unicode.IsSpace = s.
Proof.
  intros s Hs Hlast.
  destruct (DecodeLast_spec s Hs) as (a & cp & b & Hsplit & Hsize & Hwidth & _).
  unfold strings.TrimRightFunc, strings.lastIndexFunc.
  cbn [strings.lastIndexFuncLoop].
  assert (Hlen : (0 <? String.length s)%nat = true).
  { apply Nat.ltb_lt. destruct s; [contradiction | simpl; lia]. }
  rewrite Hlen, take_all.
  destruct (utf8.DecodeLastRuneInString s) as [r size]. cbn [fst snd] in *.
  rewrite Hlast. cbn [Bool.eqb].
  assert (Hi : (String.length s - size)%nat = String.length a).
  { rewrite Hsplit, length_append. lia. }
  assert (Hbyte : utf8.byteAt s (Z.of_nat (String.length a)) = byteZ cp)
    by (rewrite Hsplit; apply byteAt_app).
  assert (Hdrop : drop (String.length a) s = String cp b)
    by (rewrite Hsplit; apply drop_append).
  assert (Hlength : String.length s = (String.length a + size)%nat)
    by (rewrite Hsplit, length_append; lia).
  rewrite Hi, Hbyte, Hdrop.
  destruct (Z.leb_spec utf8.RuneSelf (byteZ cp)) as [Hhigh|Hascii].
  - rewrite Hwidth, <- Hsize, <- Hlength. apply take_all.
  - rewrite (decode_ascii cp b Hascii) in Hwidth. cbn [snd] in Hwidth.
    replace (S (String.length a)) with (String.length s) by lia. apply take_all.
Qed.

(** [TrimSpace] keeps a string whose first and last runes are not white
    space. *)
Lemma TrimSpace_keep : forall s,
  s <> "" ->
  unicode.IsSpace (fst (utf8.DecodeRuneInString s)) = false ->
  unicode.IsSpace (fst (utf8.DecodeLastRuneInString s)) = false ->
  strings.TrimSpace s = s.
Proof.
  intros s Hs Hfirst Hlast. destruct s as [|c s']; [contradiction|].
  cbn [strings.TrimSpace].
  destruct (Z.leb_spec utf8.RuneSelf (byteZ c)) as [Hhigh|Hascii].
  - unfold strings.TrimFunc.
    assert (Hleft : strings.TrimLeftFunc (String c s') unicode.IsSpace = String c s').
    { unfold strings.TrimLeftFunc, strings.indexFunc. rewrite runes_cons.
      cbn [strings.indexFuncLoop]. now rewrite Hfirst. }
    rewrite Hleft. now apply TrimRightFunc_keep.
  - rewrite (decode_ascii c s' Hascii) in Hfirst. cbn [fst] in Hfirst.
    rewrite (IsSpace_ascii c Hascii) in Hfirst. rewrite Hfirst.
    destruct (reverse (String c s')) as [|c' back] eqn:Hrev.
    { apply (f_equal reverse) in Hrev. rewrite reverse_involutive in Hrev.
      discriminate Hrev. }
    assert (Hsplit : String c s' = reverse back ++ String c' "").
    { rewrite <- (reverse_involutive (String c s')), Hrev.
      change (String c' back) with (String c' "" ++ back).
      now rewrite reverse_append. }
    cbn [strings.trimSpaceStop]. rewrite <- Hrev, reverse_involutive.
    destruct (Z.leb_spec utf8.RuneSelf (byteZ c')) as [Hhigh'|Hascii'].
    + now apply TrimRightFunc_keep.
    + rewrite Hsplit in Hlast. rewrite (DecodeLast_ascii _ c' Hascii') in Hlast.
      cbn [fst] in Hlast. rewrite (IsSpace_ascii c' Hascii') in Hlast.
      now rewrite Hlast.
Qed.

Lemma drop_all : forall s, drop (String.length s) s = "".
Proof. induction s as [|c s IH]; [reflexivity | exact IH]. Qed.

Lemma app_last_in : forall (X : Type) (l1 l2 l3 : list X) (e : X),
  l2 <> [] -> (l1 ++ l2 = l3 ++ [e])%list -> In e l2.
Proof.
  intros X l1 l2 l3 e Hne Heq.
  destruct (exists_last Hne) as (l2' & e' & ->).
  rewrite app_assoc in Heq. apply app_inj_tail in Heq. destruct Heq as [_ ->].
  apply in_or_app. right. now left.
Qed.

Lemma runes_nonempty : forall s, s <> "" -> strings.runes s <> [].
Proof. intros [|c s] Hs; [contradiction|]. now rewrite runes_cons. Qed.

(** The first rune of a word is not white space. *)
Lemma word_first_rune : forall w,
  isWord w = true -> unicode.IsSpace (fst (utf8.DecodeRuneInString w)) = false.
Proof.
  intros w Hw. destruct (isWord_inv w Hw) as [Hne Hns].
  destruct w as [|c w]; [contradiction|].
  unfold noSpace in Hns. rewrite runes_cons in Hns.
  cbn [forallb fst] in Hns. apply andb_true_iff in Hns.
  now apply negb_true_iff.
Qed.

(** Neither is the last rune of a string that ends with a word. *)
Lemma word_last_rune : forall A w,
  isWord w = true ->
  strings.runes (A ++ w) = (strings.runes A ++ strings.runes w)%list ->
  unicode.IsSpace (fst (utf8.DecodeLastRuneInString (A ++ w))) = false.
Proof.
  intros A w Hw Hrunes. destruct (isWord_inv w Hw) as [Hne Hns].
  assert (Hs : A ++ w <> "").
  { intros Hempty. apply (f_equal String.length) in Hempty.
    rewrite length_append in Hempty. destruct w; [contradiction | simpl in Hempty; lia]. }
  destruct (DecodeLast_spec (A ++ w) Hs)
    as (a & cp & b & Hsplit & _ & Hwidth & [-> | [-> Hstart]]); [reflexivity|].
  rewrite Hsplit, (runes_app_start a cp b Hstart), (runes_cons cp b) in Hrunes.
  rewrite Hwidth in Hrunes.
  rewrite drop_all in Hrunes.
  unfold noSpace in Hns. rewrite forallb_forall in Hns.
  apply negb_true_iff.
  apply (Hns (fst (utf8.DecodeRuneInString (String cp b)),
              take (String.length (String cp b)) (String cp b))).
  exact (app_last_in _ _ _ _ _ (runes_nonempty w Hne) (eq_sym Hrunes)).
Qed.

(** Words joined by single spaces begin with a rune that is not white
    space and end with a word. *)
Lemma Join_words_first : forall ws,
  Forall (fun w => isWord w = true) ws -> ws <> [] ->
  strings.Join ws " " <> ""
  /\ unicode.IsSpace (fst (utf8.DecodeRuneInString (strings.Join ws " "))) = false.
Proof.
  intros ws Hws Hne. destruct Hws as [|w ws Hw Hws]; [contradiction|].
  destruct (isWord_inv w Hw) as [Hw' _].
  destruct ws as [|w2 ws]; [split; [exact Hw' | now apply word_first_rune]|].
  rewrite Join_cons.
  change (" " ++ strings.Join (w2 :: ws) " ")
    with (String " " (strings.Join (w2 :: ws) " ")).
  split.
  - destruct w; [contradiction | discriminate].
  - rewrite (decode_app_start w " " _ Hw' eq_refl). now apply word_first_rune.
Qed.

Lemma Join_words_last : forall ws,
  Forall (fun w => isWord w = true) ws -> ws <> [] ->
  exists A w,
    strings.Join ws " " = A ++ w
    /\ isWord w = true
    /\ strings.runes (A ++ w) = (strings.runes A ++ strings.runes w)%list.
Proof.
  induction 1 as [|w ws Hw Hws IH]; intros Hne; [contradiction|].
  destruct ws as [|w2 ws].
  - exists "", w. repeat split; assumption.
  - destruct IH as (A & w' & HJ & Hw' & Hrunes); [discriminate|].
    exists (w ++ String " " A), w'. rewrite Join_cons, HJ.
    change (" " ++ A ++ w') with (String " " (A ++ w')).
    split; [|split; [exact Hw'|]].
    + rewrite append_assoc. reflexivity.
    + rewrite append_assoc.
      change (String " " A ++ w') with (String " " (A ++ w')).
      rewrite !(runes_app_start w " " _ eq_refl).
      rewrite !(runes_ascii_cons " " _ eq_refl), Hrunes.
      now rewrite <- app_assoc.
Qed.

Lemma TrimSpace_words : forall ws,
  Forall (fun w => isWord w = true) ws ->
  strings.TrimSpace (strings.Join ws " ") = strings.Join ws " ".
Proof.
  intros ws Hws. destruct ws as [|w ws]; [reflexivity|].
  destruct (Join_words_first (w :: ws) Hws) as [Hne Hfirst]; [discriminate|].
  destruct (Join_words_last (w :: ws) Hws) as (A & w' & HJ & Hw' & Hrunes);
    [discriminate|].
  apply (TrimSpace_keep _ Hne Hfirst).
  rewrite HJ. now apply word_last_rune.
Qed.

Lemma TrimSpace_space : forall s,
  strings.TrimSpace (String " " s) = strings.TrimSpace s.
Proof. reflexivity. Qed.

(** ASCII bytes that are not white space make a word. *)
Lemma wordBytes_noSpace : forall s, allb wordByte s = true -> noSpace s = true.
Proof.
  unfold noSpace. induction s as [|c s IH]; intros Hs; [reflexivity|].
  cbn [allb] in Hs. apply andb_true_iff in Hs. destruct Hs as [Hc Hs].
  unfold wordByte in Hc. apply andb_true_iff in Hc. destruct Hc as [Hascii Hspace].
  apply Z.ltb_lt in Hascii.
  rewrite (runes_ascii_cons c s Hascii). cbn [forallb fst].
  now rewrite (IsSpace_ascii c Hascii), Hspace, (IH Hs).
Qed.

Lemma wordBytes_isWord : forall s,
  s <> "" -> allb wordByte s = true -> isWord s = true.
Proof.
  intros s Hne Hs. unfold isWord. rewrite (wordBytes_noSpace s Hs).
  destruct s; [contradiction | reflexivity].
Qed.

Lemma allb_append : forall p s t, allb p (s ++ t) = allb p s && allb p t.
Proof.
  induction s as [|c s IH]; intros t; simpl; [reflexivity|].
  now rewrite IH, andb_assoc.
Qed.

Lemma mem_append : forall c s t, mem c (s ++ t) = mem c s || mem c t.
Proof.
  induction s as [|c' s IH]; intros t; simpl; [reflexivity|].
  now rewrite IH, orb_assoc.
Qed.

(** A byte that fails [p] does not occur where all bytes satisfy [p]. *)
Lemma mem_allb : forall p c s, allb p s = true -> p c = false -> mem c s = false.
Proof.
  induction s as [|c' s IH]; intros Hs Hc; simpl in *; [reflexivity|].
  apply andb_true_iff in Hs. destruct Hs as [Hc' Hs].
  rewrite (IH Hs Hc), orb_false_r.
  destruct (Ascii.eqb_spec c' c) as [->|]; [congruence | reflexivity].
Qed.

Lemma allb_impl : forall (p q : ascii -> bool) s,
  (forall c, p c = true -> q c = true) -> allb p s = true -> allb q s = true.
Proof.
  induction s as [|c s IH]; intros Hpq Hs; simpl in *; [reflexivity|].
  apply andb_true_iff in Hs. destruct Hs as [Hc Hs].
  now rewrite (Hpq c Hc), IH.
Qed.

Lemma numByte_wordByte : forall c, numByte c = true -> wordByte c = true.
Proof.
  intros [[] [] [] [] [] [] [] []] Hc; try reflexivity;
    vm_compute in Hc; discriminate Hc.
Qed.

Lemma isInteger_inv : forall s,
  isInteger s = true -> s <> "" /\ allb numByte s = true.
Proof.
  intros [|c s] Hs; [discriminate|]. split; [discriminate|].
  unfold isInteger in Hs. cbn [allb]. unfold numByte at 1.
  destruct (isSign c) eqn:Hsign.
  - rewrite orb_true_r. cbn [andb].
    destruct (isNumeral_inv s Hs) as [_ Hall].
    apply (allb_impl isDigit numByte s); [|exact Hall].
    intros d Hd. unfold numByte. now rewrite Hd.
  - destruct (isNumeral_inv (String c s) Hs) as [_ Hall].
    cbn [allb] in Hall. apply andb_true_iff in Hall. destruct Hall as [Hc Hall].
    rewrite Hc. cbn [orb andb].
    apply (allb_impl isDigit numByte s); [|exact Hall].
    intros d Hd. unfold numByte. now rewrite Hd.
Qed.

Lemma after_prefix : forall sep s, after (sep ++ s) sep = s.
Proof.
  intros sep s. unfold after. rewrite Index_prefix. apply drop_append.
Qed.

(** ** A line of a running program *)

Section RunningLine.

Variables (name N : string) (ts : list string).

Hypothesis Hname : isWord name = true.
Hypothesis HN : isInteger N = true.
Hypothesis Hts : Forall (fun w => isWord w = true) ts.

Let T := strings.Join ts " ".

Hypothesis Hcomma : mem "," T = false.
Hypothesis Huptime : strings.Contains T "uptime" = false.
Hypothesis Hsentinel : strings.Contains T "no such process" = false.

Let line := name ++ " RUNNING pid " ++ N ++ ", uptime " ++ T.

(** What follows "uptime" in the description: nothing when [T] is empty, a
    space and [T] otherwise. *)
Let sp := match ts with [] => "" | _ => String " " T end.

(** What follows the first "pid" in the description. *)
Let rest := " " ++ N ++ "," ++ " uptime" ++ sp.

Lemma integer_mem : forall c, numByte c = false -> mem c N = false.
Proof.
  intros c Hc. exact (mem_allb numByte c N (proj2 (isInteger_inv N HN)) Hc).
Qed.

Lemma integer_word : forall s,
  allb wordByte s = true -> isWord (N ++ s) = true.
Proof.
  intros s Hs. destruct (isInteger_inv N HN) as [Hne Hall].
  apply wordBytes_isWord.
  - destruct N; [contradiction | discriminate].
  - rewrite allb_append, Hs.
    now rewrite (allb_impl numByte wordByte N numByte_wordByte Hall).
Qed.

Lemma running_fields :
  strings.Fields line
  = ([name; "RUNNING"; "pid"; (N ++ ",")%string; "uptime"] ++ ts)%list.
Proof.
  assert (Hwords : Forall (fun w => isWord w = true)
                          [name; "RUNNING"; "pid"; N ++ ","; "uptime"]).
  { repeat constructor; try assumption. now apply integer_word. }
  rewrite <- (Fields_words _ ts Hwords Hts). f_equal.
  unfold line. fold T. cbn [strings.Join]. now rewrite !append_assoc.
Qed.

Lemma running_description :
  strings.Join
    (skipn 2 ([name; "RUNNING"; "pid"; (N ++ ",")%string; "uptime"] ++ ts)%list) " "
  = "pid" ++ rest.
Proof.
  unfold rest, sp, T. cbn [app skipn].
  destruct ts as [|t ts']; cbn [strings.Join]; now rewrite !append_assoc.
Qed.

Lemma sp_facts :
  strings.Contains sp "no such process" = false
  /\ strings.Contains sp "uptime" = false
  /\ mem "," sp = false
  /\ strings.TrimSpace sp = T.
Proof.
  unfold sp. destruct ts as [|t ts'] eqn:Hts'; [repeat split|].
  fold T. repeat split.
  - exact (eq_trans (Contains_skip " " T "n" "o such process" eq_refl) Hsentinel).
  - exact (eq_trans (Contains_skip " " T "u" "ptime" eq_refl) Huptime).
  - exact Hcomma.
  - rewrite TrimSpace_space. now apply TrimSpace_words.
Qed.

Lemma running_not_sentinel :
  strings.Contains ("pid" ++ rest) "no such process" = false.
Proof.
  destruct sp_facts as (Hsp & _).
  replace ("pid" ++ rest) with (("pid " ++ N ++ ", uptime") ++ sp)
    by (unfold rest; now rewrite !append_assoc).
  rewrite Contains_skip; [exact Hsp|].
  rewrite !mem_append, (integer_mem "n" eq_refl). reflexivity.
Qed.

Lemma running_pid_text :
  strings.TrimSpace
    (nth 0 (strings.Split (nth 1 (strings.Split ("pid" ++ rest) "pid") "") ",") "")
  = N.
Proof.
  destruct (Split_second "p" "id" ("pid" ++ rest)) as [_ ->].
  { unfold strings.Contains. now rewrite Index_prefix. }
  rewrite after_prefix.
  rewrite (Split_first "," "").
  replace rest with ((" " ++ N ++ ",") ++ " uptime" ++ sp)
    by (unfold rest; now rewrite !append_assoc).
  rewrite (before_skip (" " ++ N ++ ",") _ "p" "id").
  2:{ rewrite !mem_append, (integer_mem "p" eq_refl). reflexivity. }
  replace ((" " ++ N ++ ",") ++ before (" uptime" ++ sp) "pid")
    with ((" " ++ N) ++ "," ++ before (" uptime" ++ sp) "pid")
    by now rewrite !append_assoc.
  rewrite (before_found (" " ++ N) _ "," "").
  2:{ rewrite mem_append, (integer_mem "," eq_refl). reflexivity. }
  change (" " ++ N) with (String " " N). rewrite TrimSpace_space.
  pose proof (integer_word "" eq_refl) as HwN. rewrite append_nil_r in HwN.
  exact (TrimSpace_words [N] (Forall_cons _ HwN (Forall_nil _))).
Qed.

Lemma running_uptime_text :
  (if strings.Contains ("pid" ++ rest) "uptime" then
     if (1 <? List.length (strings.Split ("pid" ++ rest) "uptime"))%nat then
       strings.TrimSpace
         (nth 0 (strings.Split
                   (nth 1 (strings.Split ("pid" ++ rest) "uptime") "") ",") "")
     else ""
   else "") = T.
Proof.
  destruct sp_facts as (_ & Hup & Hcom & Htrim).
  assert (Hshape : "pid" ++ rest = ("pid " ++ N ++ ", ") ++ "uptime" ++ sp)
    by (unfold rest; now rewrite !append_assoc).
  assert (Hmem : mem "u" ("pid " ++ N ++ ", ") = false).
  { rewrite !mem_append, (integer_mem "u" eq_refl). reflexivity. }
  rewrite Hshape, Contains_middle.
  destruct (Split_second "u" "ptime" (("pid " ++ N ++ ", ") ++ "uptime" ++ sp))
    as [Hlen ->]; [apply Contains_middle|].
  apply Nat.ltb_lt in Hlen. rewrite Hlen.
  rewrite (after_found _ sp "u" "ptime" Hmem).
  rewrite (before_absent sp "u" "ptime" Hup).
  rewrite (Split_first "," "").
  unfold before. now rewrite (Index_absent sp "," "" Hcom).
Qed.

(** The line parses to a RUNNING record with the uptime [T]; the process
    id is what [Atoi] makes of [N]. *)
Lemma running_line_parses :
  parseStatusLine line
  = ({| Name := name; Description := "pid" ++ rest; State := 20;
        StateName := "RUNNING"; PID := fst (strconv.Atoi N); Uptime := T |}, None).
Proof.
  pose proof (parse_known_state_pid line 20) as Hparse.
  rewrite running_fields, running_description in Hparse.
  cbn [app nth List.length] in Hparse.
  rewrite Hparse.
  - now rewrite running_pid_text, running_uptime_text.
  - lia.
  - exact running_not_sentinel.
  - reflexivity.
  - unfold strings.Contains. now rewrite Index_prefix.
Qed.

End RunningLine.

(** ** The process id of any line with a pid marker *)

Lemma parse_pid_marker : forall line stateCode,
  let parts := strings.Fields line in
  let description := strings.Join (skipn 2 parts) " " in
  let pidStr :=
    strings.TrimSpace (before (before (after description "pid") "pid") ",") in
  (3 <= List.length parts)%nat ->
  strings.Contains description "no such process" = false ->
  mapIndex stateMap (nth 1 parts "") = Some stateCode ->
  strings.Contains description "pid" = true ->
  exists info,
    parseStatusLine line = (info, None)
    /\ State info = stateCode
    /\ PID info = fst (strconv.Atoi pidStr)
    /\ match snd (strconv.Atoi pidStr) with
       | None => True
       | Some strconv.ErrSyntax => PID info = 0
       | Some strconv.ErrRange => PID info = maxInt \/ PID info = minInt
       end.
Proof.
  intros line stateCode parts description pidStr Hlen Hsentinel Hstate Hpid.
  rewrite (parse_known_state_pid line stateCode Hlen Hsentinel Hstate Hpid).
  fold parts. fold description.
  destruct (Split_second "p" "id" description Hpid) as [_ ->].
  rewrite (Split_first "," ""). fold pidStr.
  eexists. split; [reflexivity|]. cbn [State PID]. split; [reflexivity|].
  split; [reflexivity|].
  destruct (strconv.Atoi pidStr) as [v [e|]] eqn:Hatoi; [|exact I].
  exact (Atoi_error_value pidStr v e Hatoi).
Qed.

(** What lies before the first instance of a byte does not hold it. *)
Lemma before_byte : forall c s, mem c (before s (String c "")) = false.
Proof.
  intros c s. unfold before. induction s as [|c' s IH]; [reflexivity|].
  rewrite Index_step. cbn [strings.HasPrefix].
  destruct (Ascii.eqb c' c) eqn:Hc; cbn [andb]; [reflexivity|].
  destruct (strings.Index s (String c "")) as [i|]; cbn [option_map take mem];
    now rewrite Hc, IH.
Qed.

(** ** Texts that are no integers *)

Lemma digitsPrefix_digits : forall s, allb isDigit (digitsPrefix s) = true.
Proof.
  induction s as [|c s IH]; [reflexivity|]. cbn [digitsPrefix].
  destruct (isDigit c) eqn:Hc; [|reflexivity]. cbn [allb]. now rewrite Hc, IH.
Qed.

Lemma nondigit_value : forall c,
  isDigit c = false -> (9 <? (byteZ c - 0x30) mod 256) = true.
Proof.
  intros [[] [] [] [] [] [] [] []] Hc; try reflexivity; discriminate Hc.
Qed.

(** The fast path of [Atoi] stops at a byte that is no digit. *)
Lemma atoiLoop_nondigit : forall s n,
  allb isDigit s = false -> strconv.atoiLoop s n = None.
Proof.
  induction s as [|c s IH]; intros n Hs; [discriminate Hs|].
  cbn [allb strconv.atoiLoop] in *. cbv zeta.
  destruct (isDigit c) eqn:Hc.
  - pose proof (isDigit_value c Hc) as Hd. rewrite Z.mod_small by lia.
    destruct (Z.ltb_spec 9 (byteZ c - 0x30)); [lia|]. now apply IH.
  - now rewrite (nondigit_value c Hc).
Qed.

(** So does the loop of [ParseUint], with a syntax error, when the digits
    before that byte have not overflowed. *)
Lemma parseUintLoop_nondigit : forall s n,
  allb isDigit s = false -> 0 <= n ->
  numeralLoop (digitsPrefix s) n <= maxInt ->
  strconv.parseUintLoop 64 s n = (0, Some strconv.ErrSyntax).
Proof.
  induction s as [|c s IH]; intros n Hs Hn Hmax; [discriminate Hs|].
  cbn [allb digitsPrefix strconv.parseUintLoop] in *. cbv zeta.
  fold (isDigit c). destruct (isDigit c) eqn:Hc; [|reflexivity].
  cbn [andb numeralLoop] in *.
  pose proof (isDigit_value c Hc) as Hd.
  pose proof (numeralLoop_ge (digitsPrefix s) (10 * n + (byteZ c - 0x30))
                             (digitsPrefix_digits s) ltac:(lia)) as Hge.
  unfold maxInt, strconv.intSize in Hmax.
  change (2 ^ (64 - 1) - 1) with 9223372036854775807 in Hmax.
  unfold strconv.maxUint64.
  change (2 ^ 64 - 1) with 18446744073709551615.
  change (18446744073709551615 / 10 + 1) with 1844674407370955162.
  change (2 ^ 64) with 18446744073709551616.
  destruct (Z.leb_spec 1844674407370955162 n); [lia|].
  rewrite (Z.mod_small (n * 10)) by lia.
  rewrite (Z.mod_small (n * 10 + (byteZ c - 0x30))) by lia.
  destruct (Z.ltb_spec (n * 10 + (byteZ c - 0x30)) (n * 10)); [lia|].
  destruct (Z.ltb_spec 18446744073709551615 (n * 10 + (byteZ c - 0x30))); [lia|].
  cbn [orb]. replace (n * 10 + (byteZ c - 0x30)) with (10 * n + (byteZ c - 0x30)) by lia.
  apply IH; [assumption | lia |].
  unfold maxInt, strconv.intSize. change (2 ^ (64 - 1) - 1) with 9223372036854775807.
  exact Hmax.
Qed.

(** [Atoi] of a text that is no integer, and whose leading digits do not
    overflow, is 0 with a syntax error. *)
Lemma Atoi_not_integer : forall s,
  isInteger s = false -> numeral (leadingDigits s) <= maxInt ->
  strconv.Atoi s = (0, Some strconv.ErrSyntax).
Proof.
  intros s Hs Hmax. destruct s as [|c s]; [reflexivity|].
  unfold isInteger in Hs. unfold leadingDigits in Hmax.
  set (digits := if isSign c then s else String c s) in *.
  assert (Hdigits : isNumeral digits = false)
    by (subst digits; now destruct (isSign c)).
  assert (Hlead : numeral (digitsPrefix digits) <= maxInt)
    by (subst digits; now destruct (isSign c)).
  clear Hs Hmax.
  assert (Hcases : digits = "" \/ allb isDigit digits = false).
  { unfold isNumeral in Hdigits. destruct digits; [now left | right].
    exact Hdigits. }
  unfold strconv.Atoi.
  destruct ((0 <? Z.of_nat (String.length (String c s)))
            && (Z.of_nat (String.length (String c s)) <? 19)).
  - fold (isSign c). fold digits.
    destruct Hcases as [Hempty | Hall].
    + assert (Hsign : isSign c = true).
      { subst digits. destruct (isSign c); [reflexivity | discriminate Hempty]. }
      now rewrite Hsign, Hempty.
    + destruct (isSign c && (String.length digits <? 1)%nat); [reflexivity|].
      now rewrite (atoiLoop_nondigit digits 0 Hall).
  - unfold strconv.ParseInt.
    replace (if Ascii.eqb c "+" || Ascii.eqb c "-" then s else String c s) with digits
      by (subst digits; unfold isSign; now rewrite orb_comm).
    unfold strconv.ParseUint.
    change (if 0 =? 0 then strconv.intSize else 0) with 64.
    destruct Hcases as [-> | Hall]; [reflexivity|].
    destruct digits as [|d digits']; [discriminate Hall|].
    now rewrite (parseUintLoop_nondigit (String d digits') 0 Hall (Z.le_refl 0) Hlead).
Qed.

(** ** The text between the first "pid" and the next comma *)

Lemma HasPrefix_split : forall p s,
  strings.HasPrefix s p = true -> s = p ++ drop (String.length p) s.
Proof.
  induction p as [|c p IH]; intros s Hpre; [reflexivity|].
  destruct s as [|c' s]; [discriminate Hpre|].
  cbn [strings.HasPrefix] in Hpre. apply andb_true_iff in Hpre.
  destruct Hpre as [Hc Hpre]. apply Ascii.eqb_eq in Hc. subst c'.
  cbn [String.length drop append]. f_equal. now apply IH.
Qed.

(** A string is what lies before the first instance of a text, that text,
    and what lies after it. *)
Lemma Index_split : forall s substr i,
  strings.Index s substr = Some i ->
  s = take i s ++ substr ++ drop (i + String.length substr) s.
Proof.
  induction s as [|c s IH]; intros substr i Hi.
  - destruct substr; [injection Hi as <-; reflexivity | discriminate Hi].
  - rewrite Index_step in Hi.
    destruct (strings.HasPrefix (String c s) substr) eqn:Hpre.
    + injection Hi as <-. cbn [take Nat.add append]. now apply HasPrefix_split.
    + destruct (strings.Index s substr) as [j|] eqn:Hj; [|discriminate Hi].
      injection Hi as <-. cbn [take Nat.add drop append]. f_equal. now apply IH.
Qed.

(** No "pid" begins before a comma in a text that holds none up to that
    comma. *)
Lemma Index_pid_comma : forall A R,
  strings.Contains A "pid" = false ->
  strings.Index (A ++ "," ++ R) "pid"
  = option_map (fun k => (String.length A + 1 + k)%nat) (strings.Index R "pid").
Proof.
  induction A as [|a A IH]; intros R HA.
  - cbn [append String.length Nat.add]. rewrite Index_step.
    cbn [strings.HasPrefix Ascii.eqb Bool.eqb andb].
    now destruct (strings.Index R "pid").
  - unfold strings.Contains in HA. rewrite Index_step in HA.
    destruct (strings.HasPrefix (String a A) "pid") eqn:Hpre; [discriminate HA|].
    assert (HA' : strings.Contains A "pid" = false).
    { unfold strings.Contains. now destruct (strings.Index A "pid"). }
    change (String a A ++ "," ++ R) with (String a (A ++ "," ++ R)).
    rewrite Index_step.
    assert (Hpre' : strings.HasPrefix (String a (A ++ "," ++ R)) "pid" = false).
    { destruct A as [|b [|d A]]; cbn [strings.HasPrefix append] in *.
      - cbn [Ascii.eqb Bool.eqb andb]. apply andb_false_r.
      - cbn [Ascii.eqb Bool.eqb andb]. now rewrite !andb_false_r.
      - exact Hpre. }
    rewrite Hpre', (IH R HA').
    now destruct (strings.Index R "pid").
Qed.

(** When no "pid" lies before the first comma, cutting at "pid" first
    changes nothing of what lies before that comma. *)
Lemma before_pid_comma : forall X,
  strings.Contains (before X ",") "pid" = false ->
  before (before X "pid") "," = before X ",".
Proof.
  intros X Hno.
  destruct (strings.Index X ",") as [j|] eqn:Hj.
  - pose proof (Index_split X "," j Hj) as Hsplit.
    pose proof (before_byte "," X) as Hmem.
    assert (Hbefore : before X "," = take j X) by (unfold before; now rewrite Hj).
    rewrite Hbefore in *.
    set (A := take j X) in *. set (R := drop (j + String.length ",") X) in *.
    rewrite Hsplit. unfold before at 2.
    rewrite (Index_pid_comma A R Hno).
    destruct (strings.Index R "pid") as [k|]; cbn [option_map].
    + replace (String.length A + 1 + k)%nat with (String.length A + S k)%nat by lia.
      rewrite take_append_add. cbn [append take].
      exact (before_found A (take k R) "," "" Hmem).
    + exact (before_found A R "," "" Hmem).
  - assert (Hbefore : before X "," = X) by (unfold before; now rewrite Hj).
    rewrite Hbefore in *.
    now rewrite (before_absent X "p" "id" Hno).
Qed.

(** The process id of a line with one "pid" before the comma. *)
Lemma parse_pid_text : forall line stateCode,
  let parts := strings.Fields line in
  let description := strings.Join (skipn 2 parts) " " in
  let text := strings.TrimSpace (before (after description "pid") ",") in
  mapIndex stateMap (nth 1 parts "") = Some stateCode ->
  strings.Contains description "pid" = true ->
  strings.Contains description "no such process" = false ->
  strings.Contains (before (after description "pid") ",") "pid" = false ->
  exists info,
    parseStatusLine line = (info, None)
    /\ State info = stateCode
    /\ PID info = fst (strconv.Atoi text).
Proof.
  intros line stateCode parts description text Hstate Hpid Hsentinel Hone.
  assert (Hlen : (3 <= List.length parts)%nat).
  { destruct (Nat.lt_ge_cases (List.length parts) 3) as [Hshort|]; [|assumption].
    assert (Hnil : skipn 2 parts = []).
    { destruct parts as [|a [|b [|w ws]]]; simpl in Hshort; try reflexivity; lia. }
    subst description. rewrite Hnil in Hpid. discriminate Hpid. }
  destruct (parse_pid_marker line stateCode Hlen Hsentinel Hstate Hpid)
    as (info & Hparse & Hcode & Hvalue & _).
  exists info. split; [exact Hparse|]. split; [exact Hcode|].
  rewrite Hvalue. fold parts. fold description.
  now rewrite (before_pid_comma _ Hone).
Qed.




(** * Further properties of the parser and of [Status] *)

(** ** The fields of a line are words *)

(** A list of runes that decodes from its own bytes stays so without its
    first rune. *)
Lemma decoded_tail : forall x rs,
  strings.runes (bytesOf (x :: rs)) = x :: rs ->
  strings.runes (bytesOf rs) = rs.
Proof.
  intros [r b] rs Hdec. cbn [bytesOf] in Hdec.
  destruct (b ++ bytesOf rs) as [|c s] eqn:Hs; [discriminate Hdec|].
  rewrite runes_cons in Hdec.
  pose proof (decode_size c s) as [_ Hlen].
  set (size := snd (utf8.DecodeRuneInString (String c s))) in *.
  injection Hdec as _ Htake Hrest.
  assert (Hsize : String.length b = size).
  { rewrite <- Htake. apply length_take. exact Hlen. }
  rewrite <- Hs, <- Hsize, drop_append in Hrest. exact Hrest.
Qed.

Lemma decoded_suffix : forall rs rs',
  strings.runes (bytesOf (rs ++ rs')) = (rs ++ rs')%list ->
  strings.runes (bytesOf rs') = rs'.
Proof.
  induction rs as [|x rs IH]; intros rs' Hdec; [exact Hdec|].
  apply IH. exact (decoded_tail x _ Hdec).
Qed.

(** The bytes of a rune that is white space begin with a byte that starts
    a rune. *)
Lemma decoded_space_start : forall r b rs,
  strings.runes (bytesOf ((r, b) :: rs)) = (r, b) :: rs ->
  unicode.IsSpace r = true ->
  exists cp b', b = String cp b' /\ utf8.RuneStart (byteZ cp) = true.
Proof.
  intros r b rs Hdec Hr. cbn [bytesOf] in Hdec.
  destruct b as [|cp b'].
  - cbn [append] in Hdec.
    destruct (bytesOf rs) as [|c s] eqn:Hs; [discriminate Hdec|].
    rewrite runes_cons in Hdec.
    pose proof (decode_size c s) as [[Hone _] _].
    set (size := snd (utf8.DecodeRuneInString (String c s))) in *.
    injection Hdec as _ Htake _.
    destruct size as [|n]; [lia | cbn [take] in Htake; discriminate Htake].
  - exists cp, b'. split; [reflexivity|].
    change (String cp b' ++ bytesOf rs) with (String cp (b' ++ bytesOf rs)) in Hdec.
    rewrite runes_cons in Hdec.
    rewrite RuneStart_isCont.
    destruct (utf8.isCont (byteZ cp)) eqn:Hcont; [|reflexivity].
    rewrite (decode_cont cp _ Hcont) in Hdec. cbn [fst] in Hdec.
    injection Hdec as Hrune _ _.
    subst r. discriminate Hr.
Qed.

(** The runes before white space, or before the end, decode from their own
    bytes. *)
Lemma decoded_prefix : forall seg rest,
  strings.runes (bytesOf (seg ++ rest)) = (seg ++ rest)%list ->
  (rest = [] \/ exists r b rest', rest = (r, b) :: rest' /\ unicode.IsSpace r = true) ->
  strings.runes (bytesOf seg) = seg.
Proof.
  intros seg rest Hdec [-> | (r & b & rest' & -> & Hr)].
  - now rewrite app_nil_r in Hdec.
  - pose proof (decoded_suffix _ _ Hdec) as Hrest.
    destruct (decoded_space_start r b rest' Hrest Hr) as (cp & b' & -> & Hstart).
    rewrite bytesOf_app in Hdec. cbn [bytesOf] in Hdec, Hrest.
    change (String cp b' ++ bytesOf rest') with (String cp (b' ++ bytesOf rest')) in Hdec, Hrest.
    rewrite (runes_app_start _ cp _ Hstart), Hrest in Hdec.
    exact (app_inv_tail _ _ _ Hdec).
Qed.

(** The loop of [FieldsFunc] on the runes of a string: the field that is
    open is made of runes that are not white space and ends at white space
    or at the end, and the fields that have ended are words. *)
Lemma fieldsFuncLoop_words : forall rs,
  strings.runes (bytesOf rs) = rs ->
  (exists seg rest,
      rs = (seg ++ rest)%list
      /\ fst (strings.fieldsFuncLoop unicode.IsSpace rs) = bytesOf seg
      /\ forallb (fun rb => negb (unicode.IsSpace (fst rb))) seg = true
      /\ (rest = [] \/ exists r b rest',
                         rest = (r, b) :: rest' /\ unicode.IsSpace r = true))
  /\ Forall (fun w => isWord w = true)
            (snd (strings.fieldsFuncLoop unicode.IsSpace rs)).
Proof.
  induction rs as [|[r b] rs IH]; intros Hdec.
  - split; [|constructor]. exists [], []. repeat split. now left.
  - destruct (IH (decoded_tail _ _ Hdec)) as [(seg & rest & Hrs & Hfield & Hseg & Hrest) Hfields].
    cbn [strings.fieldsFuncLoop].
    destruct (strings.fieldsFuncLoop unicode.IsSpace rs) as [field fields].
    cbn [fst snd] in *.
    destruct (unicode.IsSpace r) eqn:Hr.
    + split.
      * exists [], ((r, b) :: rs). repeat split. right. now exists r, b, rs.
      * cbn [snd]. destruct field as [|c field]; [exact Hfields|].
        cbn [strings.flush]. constructor; [|exact Hfields].
        unfold isWord, noSpace. cbn [String.eqb negb andb].
        rewrite Hfield. rewrite Hrs in Hdec.
        pose proof (decoded_tail _ _ Hdec) as Hdec'.
        now rewrite (decoded_prefix seg rest Hdec' Hrest).
    + split; [|exact Hfields].
      exists ((r, b) :: seg), rest. cbn [fst bytesOf forallb app].
      rewrite Hr, Hseg, Hfield, Hrs. repeat split. exact Hrest.
Qed.

(** Every field of a string is a word: it is not empty and holds no white
    space. *)
Lemma Fields_are_words : forall s,
  Forall (fun w => isWord w = true) (strings.Fields s).
Proof.
  intros s. rewrite Fields_FieldsFunc. unfold strings.FieldsFunc.
  pose proof (bytesOf_runes s) as Hbytes.
  assert (Hdec : strings.runes (bytesOf (strings.runes s)) = strings.runes s)
    by now rewrite Hbytes.
  destruct (fieldsFuncLoop_words _ Hdec) as [(seg & rest & Hrs & Hfield & Hseg & Hrest) Hfields].
  destruct (strings.fieldsFuncLoop unicode.IsSpace (strings.runes s)) as [field fields].
  cbn [fst snd] in *.
  destruct field as [|c field]; [exact Hfields|].
  cbn [strings.flush]. constructor; [|exact Hfields].
  unfold isWord, noSpace. cbn [String.eqb negb andb].
  rewrite Hfield. rewrite Hrs in Hdec.
  now rewrite (decoded_prefix seg rest Hdec Hrest).
Qed.

(** Splitting into fields is idempotent over joining with single spaces. *)
Lemma Fields_Join_Fields : forall s,
  strings.Fields (strings.Join (strings.Fields s) " ") = strings.Fields s.
Proof.
  intros s. rewrite (Fields_FieldsFunc (strings.Join _ _)).
  apply Fields_words_only, Fields_are_words.
Qed.

(** ** What a line that parses gives *)

(** [parseStatusLine] reads a line of three fields or more through its
    fields only. *)
Lemma parse_fields : forall l1 l2,
  strings.Fields l1 = strings.Fields l2 ->
  (3 <= List.length (strings.Fields l1))%nat ->
  parseStatusLine l1 = parseStatusLine l2.
Proof.
  intros l1 l2 Heq Hlen. unfold parseStatusLine. rewrite <- Heq.
  apply Nat.ltb_ge in Hlen. now rewrite Hlen.
Qed.

Lemma parse_normal : forall line,
  (3 <= List.length (strings.Fields line))%nat ->
  parseStatusLine (strings.Join (strings.Fields line) " ") = parseStatusLine line.
Proof.
  intros line Hlen. apply parse_fields; rewrite Fields_Join_Fields; [reflexivity | exact Hlen].
Qed.

(** The uptime text of a description. *)
Lemma uptime_text : forall description,
  (if strings.Contains description "uptime" then
     if (1 <? List.length (strings.Split description "uptime"))%nat then
       strings.TrimSpace
         (nth 0 (strings.Split (nth 1 (strings.Split description "uptime") "") ",") "")
     else ""
   else "")
  = if strings.Contains description "uptime" then
      strings.TrimSpace (before (before (after description "uptime") "uptime") ",")
    else "".
Proof.
  intros description.
  destruct (strings.Contains description "uptime") eqn:Hup; [|reflexivity].
  destruct (Split_second "u" "ptime" description Hup) as [Hlen ->].
  apply Nat.ltb_lt in Hlen. rewrite Hlen.
  now rewrite (Split_first "," "").
Qed.

(** The two shapes of a record: the sentinel, and the record of a line with
    a known state. *)
Lemma parse_success_inv : forall line info,
  parseStatusLine line = (info, None) ->
  let parts := strings.Fields line in
  let description := strings.Join (skipn 2 parts) " " in
  (3 <= List.length parts)%nat
  /\ ((strings.Contains description "no such process" = true
       /\ info = {| Name := nth 0 parts ""; Description := "no such process";
                    State := 1000; StateName := "UNKNOWN"; PID := 0; Uptime := "" |})
      \/ (strings.Contains description "no such process" = false
          /\ exists stateCode pid,
               mapIndex stateMap (nth 1 parts "") = Some stateCode
               /\ info = {| Name := nth 0 parts ""; Description := description;
                            State := stateCode; StateName := nth 1 parts "";
                            PID := pid;
                            Uptime :=
                              if strings.Contains description "pid" then
                                if strings.Contains description "uptime" then
                                  strings.TrimSpace
                                    (before (before (after description "uptime")
                                                    "uptime") ",")
                                else ""
                              else "" |}
               /\ (strings.Contains description "pid" = false -> pid = 0))).
Proof.
  intros line info Hparse parts description. subst parts description.
  destruct (Nat.lt_ge_cases (List.length (strings.Fields line)) 3) as [Hlen|Hlen].
  { rewrite (parse_invalid line Hlen) in Hparse. discriminate. }
  split; [exact Hlen|].
  destruct (strings.Contains (strings.Join (skipn 2 (strings.Fields line)) " ")
                             "no such process") eqn:Hnsp.
  { rewrite (parse_no_such_process line Hlen Hnsp) in Hparse.
    injection Hparse as <-. left. now split. }
  right. split; [reflexivity|].
  destruct (mapIndex stateMap (nth 1 (strings.Fields line) "")) as [stateCode|] eqn:Hstate.
  2:{ rewrite (parse_unknown_state line Hlen Hnsp Hstate) in Hparse. discriminate. }
  destruct (strings.Contains (strings.Join (skipn 2 (strings.Fields line)) " ") "pid")
    eqn:Hpid.
  - rewrite (parse_known_state_pid line stateCode Hlen Hnsp Hstate Hpid) in Hparse.
    rewrite uptime_text in Hparse. injection Hparse as <-.
    eexists stateCode, _. split; [reflexivity|]. split; [reflexivity | discriminate].
  - rewrite (parse_known_state_nopid line stateCode Hlen Hnsp Hstate Hpid) in Hparse.
    injection Hparse as <-.
    exists stateCode, 0. split; [reflexivity|]. split; [reflexivity | reflexivity].
Qed.

Lemma Join_nonempty : forall w ws sep, w <> "" -> strings.Join (w :: ws) sep <> "".
Proof.
  intros [|c w] ws sep Hw; [contradiction|]. destruct ws; discriminate.
Qed.

(** Three fields or more, by name. *)
Lemma fields_three : forall line,
  (3 <= List.length (strings.Fields line))%nat ->
  exists name state w ws,
    strings.Fields line = name :: state :: w :: ws
    /\ isWord name = true /\ isWord state = true
    /\ Forall (fun w => isWord w = true) (w :: ws).
Proof.
  intros line Hlen. pose proof (Fields_are_words line) as Hwords.
  destruct (strings.Fields line) as [|name [|state [|w ws]]]; simpl in Hlen; try lia.
  exists name, state, w, ws.
  inversion Hwords as [|? ? Hname Hrest]; subst.
  inversion Hrest as [|? ? Hstate Hdesc]; subst. auto.
Qed.

(** A record without an error has a name: it is not the zero value. *)
Lemma parse_success_name : forall line info,
  parseStatusLine line = (info, None) -> isWord (Name info) = true.
Proof.
  intros line info Hparse.
  destruct (parse_success_inv line info Hparse) as [Hlen Hcases].
  destruct (fields_three line Hlen) as (name & state & w & ws & Hfields & Hname & _).
  rewrite Hfields in Hcases. cbn [nth] in Hcases.
  destruct Hcases as [[_ ->] | [_ (stateCode & pid & _ & -> & _)]]; exact Hname.
Qed.

(** ** Bytes that survive cutting and trimming *)

Lemma mem_take : forall c n s, mem c (take n s) = true -> mem c s = true.
Proof.
  induction n as [|n IH]; intros s Hin; [discriminate Hin|].
  destruct s as [|c' s]; [discriminate Hin|]. cbn [take mem] in *.
  apply orb_true_iff in Hin. apply orb_true_iff.
  destruct Hin as [Hc|Hin]; [now left | right; now apply IH].
Qed.

Lemma mem_drop : forall c n s, mem c (drop n s) = true -> mem c s = true.
Proof.
  induction n as [|n IH]; intros s Hin; [exact Hin|].
  destruct s as [|c' s]; [discriminate Hin|]. cbn [drop mem] in *.
  apply orb_true_iff. right. now apply IH.
Qed.

Lemma mem_reverse : forall c s, mem c (reverse s) = mem c s.
Proof.
  induction s as [|c' s IH]; [reflexivity|].
  change (String c' s) with (String c' "" ++ s) at 1.
  rewrite reverse_append, mem_append, IH. cbn [reverse rev_append mem].
  rewrite orb_false_r. apply orb_comm.
Qed.

Lemma mem_TrimRightFunc : forall c s f,
  mem c (strings.TrimRightFunc s f) = true -> mem c s = true.
Proof.
  intros c s f. unfold strings.TrimRightFunc.
  destruct (strings.lastIndexFunc s f false) as [i|]; [|discriminate].
  destruct (utf8.RuneSelf <=? utf8.byteAt s (Z.of_nat i)); apply mem_take.
Qed.

Lemma mem_TrimFunc : forall c s f,
  mem c (strings.TrimFunc s f) = true -> mem c s = true.
Proof.
  intros c s f Hin. unfold strings.TrimFunc in Hin.
  apply mem_TrimRightFunc in Hin. unfold strings.TrimLeftFunc in Hin.
  destruct (strings.indexFunc s f false) as [i|]; [|discriminate Hin].
  now apply mem_drop in Hin.
Qed.

Lemma mem_trimSpaceStop : forall c back,
  mem c (strings.trimSpaceStop back) = true -> mem c back = true.
Proof.
  induction back as [|c' back IH]; intros Hin; [discriminate Hin|].
  cbn [strings.trimSpaceStop] in Hin.
  destruct (utf8.RuneSelf <=? byteZ c').
  - apply mem_TrimRightFunc in Hin. now rewrite mem_reverse in Hin.
  - destruct (strings.asciiSpace c').
    + cbn [mem]. apply orb_true_iff. right. now apply IH.
    + now rewrite mem_reverse in Hin.
Qed.

(** [TrimSpace] adds no byte. *)
Lemma mem_TrimSpace : forall c s,
  mem c (strings.TrimSpace s) = true -> mem c s = true.
Proof.
  induction s as [|c' s IH]; intros Hin; [discriminate Hin|].
  cbn [strings.TrimSpace] in Hin.
  destruct (utf8.RuneSelf <=? byteZ c').
  - now apply mem_TrimFunc in Hin.
  - destruct (strings.asciiSpace c').
    + cbn [mem]. apply orb_true_iff. right. now apply IH.
    + apply mem_trimSpaceStop in Hin. now rewrite mem_reverse in Hin.
Qed.

(** A [Split] around a separator that is not empty has a first element. *)
Lemma Split_nonempty : forall c substr s,
  (0 < List.length (strings.Split s (String c substr)))%nat.
Proof.
  intros c substr s.
  destruct (strings.Index s (String c substr)) as [i|] eqn:Hi.
  - rewrite (Split_cut c substr s i Hi). cbn [List.length]. lia.
  - rewrite (Split_whole c substr s Hi). cbn [List.length]. lia.
Qed.

(** The table of states pairs codes and names one to one. *)
Lemma stateTable_one_to_one : forall c1 n1 c2 n2,
  In (c1, n1) stateTable -> In (c2, n2) stateTable -> (c1 = c2 <-> n1 = n2).
Proof.
  intros c1 n1 c2 n2 H1 H2. unfold stateTable in *. cbn [In] in H1, H2.
  repeat (destruct H1 as [H1|H1]); try contradiction;
    injection H1 as <- <-;
    repeat (destruct H2 as [H2|H2]); try contradiction;
    injection H2 as <- <-; split; intros Heq;
    first [reflexivity | discriminate Heq].
Qed.

Lemma parse_success_table : forall line info,
  parseStatusLine line = (info, None) ->
  In (State info, StateName info) stateTable.
Proof.
  intros line info Hparse.
  destruct (parse_success_inv line info Hparse)
    as [_ [[_ ->] | [_ (stateCode & pid & Hstate & -> & _)]]]; cbn [State StateName].
  - unfold stateTable. cbn [In]. tauto.
  - now apply mapIndex_stateMap_Some.
Qed.

(** ** Properties of [parseStatusLine] *)

(** X1.  [parseStatusLine] returns the zero record exactly when it returns
    an error: a line that fails to parse carries no partial record, and a
    line that parses never gives the zero record. *)
Theorem X1_zero_record_iff_error : forall line,
  snd (parseStatusLine line) <> None
  <-> fst (parseStatusLine line) = zeroProgramInfo.
Proof.
  intros line. destruct (parseStatusLine line) as [info [e|]] eqn:Hparse; cbn [fst snd].
  - split; [intros _ | discriminate].
    destruct (Nat.lt_ge_cases (List.length (strings.Fields line)) 3) as [Hlen|Hlen].
    { rewrite (parse_invalid line Hlen) in Hparse. now injection Hparse as <- _. }
    destruct (strings.Contains (strings.Join (skipn 2 (strings.Fields line)) " ")
                               "no such process") eqn:Hnsp.
    { rewrite (parse_no_such_process line Hlen Hnsp) in Hparse. discriminate. }
    destruct (mapIndex stateMap (nth 1 (strings.Fields line) "")) as [stateCode|] eqn:Hstate.
    + destruct (parse_known_state line stateCode Hlen Hnsp Hstate) as (pid & uptime & Hknown).
      rewrite Hknown in Hparse. discriminate.
    + rewrite (parse_unknown_state line Hlen Hnsp Hstate) in Hparse.
      now injection Hparse as <- _.
  - split; [intros Hnone; now elim Hnone | intros ->].
    apply parse_success_name in Hparse. discriminate Hparse.
Qed.

(** X2.  In every record [parseStatusLine] returns without an error, Name
    and StateName are words (not empty, no white space, Unicode white
    space included), and Description is not empty and is single-spaced:
    it is its own fields joined by single spaces. *)
Theorem X2_record_shape : forall line info,
  parseStatusLine line = (info, None) ->
  isWord (Name info) = true
  /\ isWord (StateName info) = true
  /\ Description info <> ""
  /\ strings.Join (strings.Fields (Description info)) " " = Description info.
Proof.
  intros line info Hparse.
  destruct (parse_success_inv line info Hparse) as [Hlen Hcases].
  destruct (fields_three line Hlen)
    as (name & state & w & ws & Hfields & Hname & Hstate & Hdesc).
  rewrite Hfields in Hcases. cbn [nth skipn] in Hcases.
  destruct Hcases as [[_ ->] | [_ (stateCode & pid & _ & -> & _)]];
    cbn [Name StateName Description].
  - repeat split; [exact Hname | discriminate].
  - split; [exact Hname|]. split; [exact Hstate|]. split.
    + apply Join_nonempty.
      inversion Hdesc as [|? ? Hw _]; subst. now apply isWord_inv in Hw.
    + now rewrite Fields_FieldsFunc, (Fields_words_only _ Hdesc).
Qed.

Lemma X2_witness :
  let line := "  web:app" ++ String "009" "RUNNING   pid 7,  uptime 0:01:02 " in
  parseStatusLine line
  = ({| Name := "web:app"; Description := "pid 7, uptime 0:01:02"; State := 20;
        StateName := "RUNNING"; PID := 7; Uptime := "0:01:02" |}, None)
  /\ isWord "web:app" = true
  /\ isWord "RUNNING" = true
  /\ "pid 7, uptime 0:01:02" <> ""
  /\ strings.Join (strings.Fields "pid 7, uptime 0:01:02") " "
     = "pid 7, uptime 0:01:02".
Proof.
  split; [reflexivity|].
  exact (X2_record_shape
           ("  web:app" ++ String "009" "RUNNING   pid 7,  uptime 0:01:02 ")
           _ eq_refl).
Defined.

(** X3.  [parseStatusLine] does not see how the fields of a line are
    separated: the line with its leading and trailing white space removed
    and every run of white space replaced by one space gives the same
    record, and, when the line has three fields or more, the same result
    altogether (the error of a shorter line quotes the line as it was). *)
Theorem X3_white_space_normalised : forall line,
  fst (parseStatusLine (strings.Join (strings.Fields line) " "))
  = fst (parseStatusLine line)
  /\ ((3 <= List.length (strings.Fields line))%nat ->
      parseStatusLine (strings.Join (strings.Fields line) " ")
      = parseStatusLine line).
Proof.
  intros line. split; [|apply parse_normal].
  destruct (Nat.lt_ge_cases (List.length (strings.Fields line)) 3) as [Hlen|Hlen].
  - rewrite (parse_invalid line Hlen).
    rewrite parse_invalid; [reflexivity|]. now rewrite Fields_Join_Fields.
  - now rewrite parse_normal.
Qed.

(** X4.  A record [parseStatusLine] returned without an error is read back
    from the line "<Name> <StateName> <Description>": formatting a record
    and parsing the line gives the record again, the "no such process"
    sentinel included. *)
Theorem X4_format_round_trip : forall line info,
  parseStatusLine line = (info, None) ->
  parseStatusLine (formatStatusLine info) = (info, None).
Proof.
  intros line info Hparse.
  destruct (parse_success_inv line info Hparse) as [Hlen Hcases].
  destruct (fields_three line Hlen)
    as (name & state & w & ws & Hfields & Hname & Hstate & Hdesc).
  rewrite Hfields in Hcases. cbn [nth skipn] in Hcases.
  destruct Hcases as [[_ Hinfo] | [_ (stateCode & pid & _ & Hinfo & _)]].
  - subst info. unfold formatStatusLine. cbn [Name StateName Description].
    assert (Hback : strings.Fields (name ++ " " ++ "UNKNOWN" ++ " " ++ "no such process")
                    = [name; "UNKNOWN"; "no"; "such"; "process"]).
    { rewrite Fields_FieldsFunc.
      apply (Fields_words_only [name; "UNKNOWN"; "no"; "such"; "process"]).
      repeat constructor; assumption. }
    rewrite parse_no_such_process; rewrite Hback; [reflexivity | simpl; lia | reflexivity].
  - assert (Hline : formatStatusLine info = strings.Join (strings.Fields line) " ").
    { subst info. unfold formatStatusLine. cbn [Name StateName Description].
      now rewrite Hfields, !Join_cons. }
    rewrite Hline, parse_normal; assumption.
Qed.

Lemma X4_witness :
  parseStatusLine "program3 ERROR (no such process)"
  = ({| Name := "program3"; Description := "no such process"; State := 1000;
        StateName := "UNKNOWN"; PID := 0; Uptime := "" |}, None)
  /\ parseStatusLine "program3 UNKNOWN no such process"
     = ({| Name := "program3"; Description := "no such process"; State := 1000;
           StateName := "UNKNOWN"; PID := 0; Uptime := "" |}, None).
Proof.
  split; [reflexivity|].
  exact (X4_format_round_trip "program3 ERROR (no such process)" _ eq_refl).
Defined.

(** X5.  No index expression of [parseStatusLine] is out of range, for any
    description: [Split(description, "pid")[1]] exists whenever the
    description contains "pid", a [Split] around a comma always has an
    element 0, and the test [len(uptimeParts) > 1] never fails once the
    description contains "uptime" (its else branch is dead). *)
Theorem X5_indices_in_range : forall description : string,
  (strings.Contains description "pid" = true ->
   (1 < List.length (strings.Split description "pid"))%nat)
  /\ (0 < List.length
            (strings.Split (nth 1 (strings.Split description "pid") "") ","))%nat
  /\ (strings.Contains description "uptime" = true ->
      (1 <? List.length (strings.Split description "uptime"))%nat = true)
  /\ (0 < List.length
            (strings.Split (nth 1 (strings.Split description "uptime") "") ","))%nat.
Proof.
  intros description. split; [|split; [|split]].
  - intros Hpid. exact (proj1 (Split_second "p" "id" description Hpid)).
  - apply Split_nonempty.
  - intros Hup. apply Nat.ltb_lt.
    exact (proj1 (Split_second "u" "ptime" description Hup)).
  - apply Split_nonempty.
Qed.

(** X6.  The Uptime of a record is empty unless the description contains
    both "pid" and "uptime" (a description with "uptime" and without "pid"
    gives no uptime); then it is the text after the first "uptime", cut at
    the next "uptime" if there is one and at the first comma, and trimmed.
    Uptime therefore never holds a comma: an uptime such as "3 days,
    1:02:03" is cut to "3 days".  The PID is 0 when the description has no
    "pid". *)
Theorem X6_uptime_text : forall line info,
  parseStatusLine line = (info, None) ->
  let description := strings.Join (skipn 2 (strings.Fields line)) " " in
  Uptime info
  = (if negb (strings.Contains description "no such process")
        && strings.Contains description "pid"
        && strings.Contains description "uptime"
     then strings.TrimSpace
            (before (before (after description "uptime") "uptime") ",")
     else "")
  /\ mem "," (Uptime info) = false
  /\ (strings.Contains description "pid" = false -> PID info = 0).
Proof.
  intros line info Hparse description. subst description.
  destruct (parse_success_inv line info Hparse) as [_ Hcases].
  cbv zeta in Hcases.
  set (description := strings.Join (skipn 2 (strings.Fields line)) " ") in *.
  assert (Hcut : forall s, mem "," (strings.TrimSpace (before s ",")) = false).
  { intros s. destruct (mem "," (strings.TrimSpace (before s ","))) eqn:Hin;
      [|reflexivity].
    apply mem_TrimSpace in Hin. now rewrite before_byte in Hin. }
  destruct Hcases as [[Hnsp ->] | [Hnsp (stateCode & pid & _ & -> & Hpid)]];
    rewrite Hnsp; cbn [Uptime PID negb andb].
  - repeat split.
  - split; [|split; [|exact Hpid]].
    + now destruct (strings.Contains description "pid"),
                   (strings.Contains description "uptime").
    + destruct (strings.Contains description "pid"); [|reflexivity].
      destruct (strings.Contains description "uptime"); [apply Hcut | reflexivity].
Qed.

Lemma X6_witness :
  parseStatusLine "p RUNNING pid 1, uptime 3 days, 1:02:03"
  = ({| Name := "p"; Description := "pid 1, uptime 3 days, 1:02:03"; State := 20;
        StateName := "RUNNING"; PID := 1; Uptime := "3 days" |}, None)
  /\ parseStatusLine "p RUNNING uptime 0:00:05"
     = ({| Name := "p"; Description := "uptime 0:00:05"; State := 20;
           StateName := "RUNNING"; PID := 0; Uptime := "" |}, None)
  /\ mem "," "3 days" = false.
Proof.
  split; [reflexivity|]. split; [reflexivity|].
  exact (proj1 (proj2 (X6_uptime_text "p RUNNING pid 1, uptime 3 days, 1:02:03"
                                      _ eq_refl))).
Defined.

(** X7.  Across all records [parseStatusLine] returns, the state code and
    the state name determine each other: two records have the same State
    exactly when they have the same StateName. *)
Theorem X7_state_determines_name : forall line1 info1 line2 info2,
  parseStatusLine line1 = (info1, None) ->
  parseStatusLine line2 = (info2, None) ->
  (State info1 = State info2 <-> StateName info1 = StateName info2).
Proof.
  intros line1 info1 line2 info2 H1 H2.
  apply stateTable_one_to_one; eapply parse_success_table; eassumption.
Qed.

Lemma X7_witness :
  State (fst (parseStatusLine "a FATAL Exited too quickly"))
  = State (fst (parseStatusLine "b FATAL can't find command"))
  <-> StateName (fst (parseStatusLine "a FATAL Exited too quickly"))
      = StateName (fst (parseStatusLine "b FATAL can't find command")).
Proof.
  exact (X7_state_determines_name
           "a FATAL Exited too quickly" _ "b FATAL can't find command" _
           eq_refl eq_refl).
Defined.

(** ** The lines of an output *)

Lemma pieces_skip : forall l s,
  mem "010" l = false ->
  bufio.pieces (l ++ s) = (l ++ fst (bufio.pieces s), snd (bufio.pieces s)).
Proof.
  induction l as [|c l IH]; intros s Hl.
  - cbn [append]. now destruct (bufio.pieces s).
  - cbn [mem] in Hl. apply orb_false_iff in Hl. destruct Hl as [Hc Hl].
    cbn [append bufio.pieces]. rewrite (IH s Hl), Hc. reflexivity.
Qed.

Lemma rawLines_cons : forall raw s,
  mem "010" raw = false ->
  bufio.rawLines (raw ++ newline ++ s) = raw :: bufio.rawLines s.
Proof.
  intros raw s Hraw. unfold bufio.rawLines. rewrite (pieces_skip raw _ Hraw).
  unfold newline. cbn [append bufio.pieces].
  destruct (bufio.pieces s) as [p ps]. cbn [Ascii.eqb Bool.eqb fst snd].
  rewrite append_nil_r. now destruct raw.
Qed.

Lemma rawLines_single : forall raw,
  mem "010" raw = false -> raw <> "" -> bufio.rawLines raw = [raw].
Proof.
  intros raw Hraw Hne. unfold bufio.rawLines.
  rewrite <- (append_nil_r raw) at 1. rewrite (pieces_skip raw "" Hraw).
  cbn [bufio.pieces fst snd]. rewrite append_nil_r.
  destruct raw; [contradiction | reflexivity].
Qed.

Lemma Tokens_cons : forall raw s,
  mem "010" raw = false ->
  Z.of_nat (String.length raw) < bufio.MaxScanTokenSize ->
  bufio.Tokens (raw ++ newline ++ s) = bufio.dropCR raw :: bufio.Tokens s.
Proof.
  intros raw s Hraw Hfit. unfold bufio.Tokens.
  rewrite (rawLines_cons raw s Hraw). cbn [bufio.takeFitting].
  apply Z.ltb_lt in Hfit. now rewrite Hfit.
Qed.

Lemma Tokens_single : forall raw,
  mem "010" raw = false -> raw <> "" ->
  Z.of_nat (String.length raw) < bufio.MaxScanTokenSize ->
  bufio.Tokens raw = [bufio.dropCR raw].
Proof.
  intros raw Hraw Hne Hfit. unfold bufio.Tokens.
  rewrite (rawLines_single raw Hraw Hne). cbn [bufio.takeFitting].
  apply Z.ltb_lt in Hfit. now rewrite Hfit.
Qed.

Lemma dropCR_return : forall l, bufio.dropCR (l ++ String "013" "") = l.
Proof.
  intros l. unfold bufio.dropCR. rewrite reverse_append.
  cbn [reverse rev_append append]. apply reverse_involutive.
Qed.

Lemma dropCR_plain : forall l, mem "013" l = false -> bufio.dropCR l = l.
Proof.
  intros l Hl. unfold bufio.dropCR. rewrite <- mem_reverse in Hl.
  destruct (reverse l) as [|c back]; [reflexivity|].
  cbn [mem] in Hl. apply orb_false_iff in Hl. destruct Hl as [Hc _].
  destruct c as [[] [] [] [] [] [] [] []]; try reflexivity. discriminate Hc.
Qed.

Lemma Tokens_terminated_newline : forall ls,
  Forall plainLine ls -> bufio.Tokens (terminated ls newline) = ls.
Proof.
  intros ls Hplain. induction Hplain as [|l ls' (Hne & Hnl & Hcr & Hfit) _ IH]; [reflexivity|].
  cbn [terminated]. rewrite (Tokens_cons l _ Hnl ltac:(lia)), IH.
  now rewrite (dropCR_plain l Hcr).
Qed.

Lemma Tokens_Join_newline : forall ls,
  Forall plainLine ls -> bufio.Tokens (strings.Join ls newline) = ls.
Proof.
  intros ls Hplain. induction Hplain as [|l ls' (Hne & Hnl & Hcr & Hfit) Hrest IH]; [reflexivity|].
  destruct ls' as [|l' ls'].
  - cbn [strings.Join]. rewrite (Tokens_single l Hnl Hne ltac:(lia)).
    now rewrite (dropCR_plain l Hcr).
  - rewrite Join_cons, (Tokens_cons l _ Hnl ltac:(lia)), IH.
    now rewrite (dropCR_plain l Hcr).
Qed.

Lemma return_line : forall l s,
  plainLine l ->
  bufio.Tokens (l ++ crlf ++ s) = l :: bufio.Tokens s.
Proof.
  intros l s (Hne & Hnl & Hcr & Hfit).
  replace (l ++ crlf ++ s) with ((l ++ String "013" "") ++ newline ++ s)
    by now rewrite append_assoc.
  rewrite Tokens_cons, dropCR_return; [reflexivity | |].
  - rewrite mem_append, Hnl. reflexivity.
  - rewrite length_append. cbn [String.length]. lia.
Qed.

Lemma Tokens_terminated_crlf : forall ls,
  Forall plainLine ls -> bufio.Tokens (terminated ls crlf) = ls.
Proof.
  intros ls Hplain. induction Hplain as [|l ls' Hl _ IH]; [reflexivity|].
  cbn [terminated]. now rewrite (return_line l _ Hl), IH.
Qed.

Lemma Tokens_Join_crlf : forall ls,
  Forall plainLine ls -> bufio.Tokens (strings.Join ls crlf) = ls.
Proof.
  intros ls Hplain. induction Hplain as [|l ls' Hl Hrest IH]; [reflexivity|].
  destruct ls' as [|l' ls'].
  - destruct Hl as (Hne & Hnl & Hcr & Hfit).
    cbn [strings.Join]. rewrite (Tokens_single l Hnl Hne ltac:(lia)).
    now rewrite (dropCR_plain l Hcr).
  - now rewrite Join_cons, (return_line l _ Hl), IH.
Qed.

(** ** The loop of [Status] *)

Lemma scanLoop_first : forall earlier bad later cause programs,
  Forall (fun l => snd (parseStatusLine l) = None) earlier ->
  snd (parseStatusLine bad) = Some cause ->
  scanLoop (earlier ++ bad :: later) programs
  = ([], Some (wrapError ("failed to parse status line: " ++ Error cause) cause)).
Proof.
  induction earlier as [|l earlier IH]; intros bad later cause programs Hok Hbad.
  - cbn [app scanLoop]. destruct (parseStatusLine bad) as [info e].
    cbn [snd] in Hbad. now subst e.
  - inversion Hok as [|? ? Hl Hrest]; subst.
    cbn [app scanLoop]. destruct (parseStatusLine l) as [info e].
    cbn [snd] in Hl. subst e. now apply IH.
Qed.

Lemma scanLoop_records : forall (Q : ProgramInfo -> Prop),
  (forall line info, parseStatusLine line = (info, None) -> Q info) ->
  forall lines programs,
    Forall Q programs -> Forall Q (fst (scanLoop lines programs)).
Proof.
  intros Q HQ. induction lines as [|l lines IH]; intros programs Hprograms.
  - exact Hprograms.
  - cbn [scanLoop]. destruct (parseStatusLine l) as [info [e|]] eqn:Hl.
    + constructor.
    + apply IH. apply Forall_app. split; [exact Hprograms|].
      constructor; [|constructor]. exact (HQ l info Hl).
Qed.

Lemma parse_ok_dec : forall l,
  {snd (parseStatusLine l) = None} + {snd (parseStatusLine l) <> None}.
Proof.
  intros l. destruct (snd (parseStatusLine l)); [right; discriminate | now left].
Qed.

(** X8.  [Status] returns records or an error, never both, and it returns
    no error exactly when the run was tolerated (no error, or exit code 3 or
    4) and every line the scanner delivers parses; the records are then
    those of the lines, in order. *)
Theorem X8_status_all_or_nothing :
  forall (E : Type) (H : CommandExecutor E) (c : Client E) (opts : StatusOptions),
    let cmd :=
      fst (Command (commandExecutor c) "supervisorctl"
                   (invocation (configFile c) ("status" :: Names opts))) in
    let result := fst (Status c opts) in
    (fst result = [] \/ snd result = None)
    /\ (snd result = None
        <-> tolerated (snd (Output cmd)) = true
            /\ Forall (fun l => snd (parseStatusLine l) = None)
                      (bufio.Tokens (fst (Output cmd))))
    /\ (snd result = None ->
        fst result
        = map (fun l => fst (parseStatusLine l)) (bufio.Tokens (fst (Output cmd)))).
Proof.
  intros E H c opts cmd result. subst cmd result.
  destruct (tolerated (snd (Output (fst (Command (commandExecutor c) "supervisorctl"
              (invocation (configFile c) ("status" :: Names opts))))))) eqn:Herr.
  - rewrite (Status_success E H c opts _ _ (surjective_pairing _) Herr).
    set (lines := bufio.Tokens _).
    destruct (Forall_Exists_dec _ parse_ok_dec lines) as [Hok|Hbad].
    + rewrite (scanLoop_ok lines [] Hok). cbn [fst snd app].
      repeat split; auto.
    + destruct (scanLoop_fail lines [] Hbad) as (bad & e & Hin & Hparse & ->).
      cbn [fst snd]. split; [now left|]. split; [|discriminate].
      split; [discriminate|]. intros [_ Hok].
      rewrite Forall_forall in Hok. rewrite (Hok bad Hin) in Hparse. discriminate.
  - rewrite Status_unfold. revert Herr.
    destruct (Command _ _ _) as [cmd ex]. cbn [fst].
    destruct (Output cmd) as [output [[code msg|msg|msg err]|]]; cbn [snd tolerated];
      intros Herr; try discriminate Herr; try rewrite Herr; cbn [fst snd];
      (split; [now left|]; split; [|discriminate]; split; [discriminate|];
       intros [Hno _]; discriminate Hno).
Qed.

(** X9.  After a tolerated run, [Status] stops at the first line that does
    not parse: it returns no record, the lines after that line are not
    looked at, and the message of the error quotes that line when it has
    fewer than three fields, and its state token otherwise. *)
Theorem X9_first_error_reported :
  forall (E : Type) (H : CommandExecutor E) (c : Client E) (opts : StatusOptions)
         (output : string) (err : option error)
         (earlier : list string) (bad : string) (later : list string),
    Output (fst (Command (commandExecutor c) "supervisorctl"
                         (invocation (configFile c) ("status" :: Names opts))))
    = (output, err) ->
    tolerated err = true ->
    bufio.Tokens output = (earlier ++ bad :: later)%list ->
    Forall (fun l => snd (parseStatusLine l) = None) earlier ->
    snd (parseStatusLine bad) <> None ->
    exists e,
      fst (Status c opts) = ([], Some e)
      /\ Unwrap e = snd (parseStatusLine bad)
      /\ Error e
         = "failed to parse status line: "
           ++ (if (List.length (strings.Fields bad) <? 3)%nat
               then "invalid status line: " ++ bad
               else "unknown state: " ++ nth 1 (strings.Fields bad) "").
Proof.
  intros E H c opts output err earlier bad later Hout Herr Hlines Hok Hbad.
  rewrite (Status_success E H c opts output err Hout Herr), Hlines.
  destruct (snd (parseStatusLine bad)) as [cause|] eqn:Hcause; [|now elim Hbad].
  rewrite (scanLoop_first earlier bad later cause [] Hok Hcause).
  eexists. split; [reflexivity|]. split; [reflexivity|]. cbn [Error]. f_equal.
  destruct (Nat.ltb_spec (List.length (strings.Fields bad)) 3) as [Hlen|Hlen].
  { rewrite (parse_invalid bad Hlen) in Hcause. now injection Hcause as <-. }
  destruct (strings.Contains (strings.Join (skipn 2 (strings.Fields bad)) " ")
                             "no such process") eqn:Hnsp.
  { rewrite (parse_no_such_process bad Hlen Hnsp) in Hcause. discriminate. }
  destruct (mapIndex stateMap (nth 1 (strings.Fields bad) "")) as [stateCode|] eqn:Hstate.
  - destruct (parse_known_state bad stateCode Hlen Hnsp Hstate) as (pid & uptime & Hknown).
    rewrite Hknown in Hcause. discriminate.
  - rewrite (parse_unknown_state bad Hlen Hnsp Hstate) in Hcause.
    now injection Hcause as <-.
Qed.

Lemma X9_witness :
  exists e,
    fst (Status {| configFile := "";
                   commandExecutor :=
                     {| Calls := [];
                        Return := fun _ _ =>
                          {| Run := None;
                             Output := ("a STOPPED not started" ++ newline
                                        ++ "b PAUSED on hold" ++ newline
                                        ++ "junk" ++ newline, None) |} |} |}
                {| Names := [] |})
    = ([], Some e)
    /\ Unwrap e = snd (parseStatusLine "b PAUSED on hold")
    /\ Error e = "failed to parse status line: unknown state: PAUSED".
Proof.
  refine (X9_first_error_reported
           MockCommandExecutor MockCommand
           {| configFile := "";
              commandExecutor :=
                {| Calls := [];
                   Return := fun _ _ =>
                     {| Run := None;
                        Output := ("a STOPPED not started" ++ newline
                                   ++ "b PAUSED on hold" ++ newline
                                   ++ "junk" ++ newline, None) |} |} |}
           {| Names := [] |}
           ("a STOPPED not started" ++ newline ++ "b PAUSED on hold" ++ newline
            ++ "junk" ++ newline)
           None ["a STOPPED not started"] "b PAUSED on hold" ["junk"]
           eq_refl eq_refl eq_refl _ _).
  - repeat constructor.
  - discriminate.
Defined.

(** X10.  [Status] reads the same lines from an output whether the lines
    end with a newline or with a carriage return and a newline, and whether
    the last line is terminated or not: for lines that are not empty, hold
    no newline or carriage return and are shorter than 65535 bytes, each of
    the four renderings is scanned back into the lines, and [Status] is
    the loop over them.  The empty output gives no record and no error. *)
Theorem X10_line_endings :
  forall (E : Type) (H : CommandExecutor E) (c : Client E) (opts : StatusOptions)
         (output : string) (err : option error) (ls : list string),
    Output (fst (Command (commandExecutor c) "supervisorctl"
                         (invocation (configFile c) ("status" :: Names opts))))
    = (output, err) ->
    tolerated err = true ->
    Forall plainLine ls ->
    In output [strings.Join ls newline; terminated ls newline;
               strings.Join ls crlf; terminated ls crlf] ->
    bufio.Tokens output = ls
    /\ fst (Status c opts) = scanLoop ls []
    /\ (Forall (fun l => snd (parseStatusLine l) = None) ls ->
        fst (Status c opts) = (map (fun l => fst (parseStatusLine l)) ls, None)).
Proof.
  intros E H c opts output err ls Hout Herr Hplain Hin.
  assert (Htokens : bufio.Tokens output = ls).
  { cbn [In] in Hin. destruct Hin as [<- | [<- | [<- | [<- | []]]]].
    - now apply Tokens_Join_newline.
    - now apply Tokens_terminated_newline.
    - now apply Tokens_Join_crlf.
    - now apply Tokens_terminated_crlf. }
  rewrite (Status_success E H c opts output err Hout Herr), Htokens.
  split; [reflexivity|]. split; [reflexivity|].
  intros Hok. now rewrite (scanLoop_ok ls [] Hok).
Qed.

Lemma X10_witness :
  let ls := ["program1 RUNNING pid 123, uptime 1:23:45";
             "program2 STOPPED not started"] in
  let output := terminated ls crlf in
  let c := {| configFile := "";
              commandExecutor :=
                {| Calls := [];
                   Return := fun _ _ => {| Run := None; Output := (output, None) |} |} |} in
  bufio.Tokens output = ls
  /\ fst (Status c {| Names := [] |}) = scanLoop ls []
  /\ (Forall (fun l => snd (parseStatusLine l) = None) ls ->
      fst (Status c {| Names := [] |})
      = (map (fun l => fst (parseStatusLine l)) ls, None)).
Proof.
  intros ls output c.
  apply (X10_line_endings MockCommandExecutor MockCommand c {| Names := [] |}
                          output None ls eq_refl eq_refl).
  - repeat constructor; try discriminate; vm_compute; reflexivity.
  - cbn [In]. right. right. right. left. reflexivity.
Defined.

(** X11.  Every record [Status] returns, whatever the executor answers,
    has a Name that is a word (not empty, no white space) and a State and
    StateName that are a pair of the table of states: the zero record and
    records of unknown states never reach the caller. *)
Theorem X11_status_records_well_formed :
  forall (E : Type) (H : CommandExecutor E) (c : Client E) (opts : StatusOptions),
    Forall (fun p => isWord (Name p) = true
                     /\ In (State p, StateName p) stateTable)
           (fst (fst (Status c opts))).
Proof.
  intros E H c opts. rewrite Status_unfold.
  destruct (Command _ _ _) as [cmd ex].
  assert (Hloop : forall output,
            Forall (fun p => isWord (Name p) = true
                             /\ In (State p, StateName p) stateTable)
                   (fst (scanLoop (bufio.Tokens output) []))).
  { intros output. apply scanLoop_records; [|constructor].
    intros line info Hparse. split.
    - exact (parse_success_name line info Hparse).
    - exact (parse_success_table line info Hparse). }
  destruct (Output cmd) as [output [[code msg|msg|msg err]|]]; cbn [fst];
    try (constructor; fail); try apply Hloop.
  destruct ((code =? 3) || (code =? 4)); cbn [fst]; [apply Hloop | constructor].
Qed.
